(** * Pod replacement reconciler (pkg/devspace/services/podreplace/replace.go)

    A shallow embedding of [ReplacePod], [updateNeeded], [deleteReplicaSet],
    [replace], [createPVC] and [scaleDownTarget], together with the
    properties of the reconciler that the specification states.

    The cluster API client, the target resolver, the replacement builder,
    the config hasher, the merge-patch encoder and the remote cache adapter
    live outside replace.go.  They appear here as interfaces (type classes):
    the Go code is embedded once and the theorems hold for every
    implementation of these interfaces. *)

From stdpp Require Import base strings gmap list pretty.
From Stdlib Require Import ZArith Lia.

Local Open Scope string_scope.
Local Open Scope list_scope.
Local Open Scope Z_scope.

(** ** Errors *)

(** The [reason] of a Kubernetes API status error.  Only not-found and
    already-exists are told apart by replace.go. *)
Inductive StatusReason :=
| StatusReasonNotFound
| StatusReasonAlreadyExists
| StatusReasonOther (reason : string).

(** Go [error] values: API status errors, [fmt.Errorf] errors (format and
    rendered arguments), [errors.Wrap] and [wait.ErrWaitTimeout]. *)
Inductive error :=
| StatusError (reason : StatusReason) (message : string)
| Errorf (format : string) (args : list string)
| Wrap (cause : error) (message : string)
| ErrWaitTimeout.

(** A Go [(value, error)] pair in which exactly one side is meaningful. *)
Inductive result (A : Type) :=
| Ok (a : A)
| Err (e : error).
Arguments Ok {A} a.
Arguments Err {A} e.

(** [err.Error()], used when an error is rendered with [%v]. *)
Fixpoint errorString (e : error) : string :=
  match e with
  | StatusError _ m => m
  | Errorf f _ => f
  | Wrap c m => m +:+ ": " +:+ errorString c
  | ErrWaitTimeout => "timed out waiting for the condition"
  end.

(** [kerrors.ReasonForError]: the reason of the first status error in the
    chain of wrapped errors. *)
Fixpoint ReasonForError (e : error) : option StatusReason :=
  match e with
  | StatusError r _ => Some r
  | Wrap c _ => ReasonForError c
  | Errorf _ _ | ErrWaitTimeout => None
  end.

Definition IsNotFound (e : error) : bool :=
  match ReasonForError e with
  | Some StatusReasonNotFound => true
  | _ => false
  end.

Definition IsAlreadyExists (e : error) : bool :=
  match ReasonForError e with
  | Some StatusReasonAlreadyExists => true
  | _ => false
  end.

(** ** Constants of replace.go *)

Definition TargetKindAnnotation : string := "devspace.sh/parent-kind".
Definition TargetNameAnnotation : string := "devspace.sh/parent-name".
Definition DevPodConfigHashAnnotation : string := "devspace.sh/config-hash".
Definition ReplicasAnnotation : string := "devspace.sh/replicas".
Definition ReplicaSetLabel : string := "devspace.sh/replaced".

(** [time.Duration] values are nanoseconds. *)
Definition Second : Z := 1000000000.
Definition Minute : Z := 60 * Second.

(** [strconv.Itoa]. *)
Definition Itoa (n : Z) : string := pretty n.

(** ** Kubernetes types the reconciler touches

    The pod template and [resource.Quantity] are opaque to replace.go; the
    operations it applies to them are the fields of [K8sTypes]. *)
Class K8sTypes := {
  PodTemplateSpec : Type;
  (** [apiequality.Semantic.DeepEqual] on pod templates *)
  SemanticDeepEqual : PodTemplateSpec -> PodTemplateSpec -> bool;
  Quantity : Type;
  (** [resource.ParseQuantity] *)
  ParseQuantity : string -> result Quantity;
  (** [resource.MustParse] *)
  MustParse : string -> Quantity;
}.

(** A Go map that may be [nil]. *)
Abbreviation gomap := (option (gmap string string)).

(** [m[k]] on a possibly nil map: the zero value when absent. *)
Definition mapIndex (m : gomap) (k : string) : string :=
  match m with
  | Some m => default "" (m !! k)
  | None => ""
  end.

Section Types.
Context `{K8sTypes}.

(** [appsv1.ReplicaSet], [appsv1.Deployment] and [appsv1.StatefulSet]
    restricted to the fields replace.go reads or writes: TypeMeta.Kind,
    ObjectMeta.{Name, Namespace, UID, Annotations}, Spec.Replicas (an
    [*int32]) and Spec.Template. *)
Record AppsObject := {
  Kind : string;
  Name : string;
  Namespace : string;
  UID : string;
  Annotations : gomap;
  Replicas : option Z;
  Template : PodTemplateSpec;
}.

(** A [runtime.Object] with its dynamic type, as the type switch of
    [scaleDownTarget] sees it. *)
Inductive Object :=
| ObjReplicaSet (t : AppsObject)
| ObjDeployment (t : AppsObject)
| ObjStatefulSet (t : AppsObject)
| ObjOther (kind name : string).

Record OwnerReference := {
  or_APIVersion : string;
  or_Kind : string;
  or_Name : string;
  or_UID : string;
  or_Controller : option bool;
}.

(** [corev1.PersistentVolumeClaim] as [createPVC] fills it. *)
Record PersistentVolumeClaim := {
  pvc_Name : string;
  pvc_Namespace : string;
  pvc_OwnerReferences : list OwnerReference;
  pvc_AccessModes : list string;
  pvc_Requests : gmap string Quantity;
  pvc_StorageClassName : option string;
}.

(** [latest.PersistenceOptions]; [po_AccessModes] may be a nil slice. *)
Record PersistenceOptions := {
  po_Size : string;
  po_StorageClassName : string;
  po_AccessModes : option (list string);
  po_Name : string;
}.

Record DevContainer := {
  dc_Container : string;
  dc_PersistPaths : list string;
}.

(** [latest.DevPod]: the fields replace.go reads, and the selectors the
    target resolver and the builder consume. *)
Record DevPod := {
  dp_Name : string;
  dp_Namespace : string;
  dp_LabelSelector : gmap string string;
  dp_ImageSelector : string;
  dp_Containers : list DevContainer;
  dp_PersistenceOptions : option PersistenceOptions;
}.

(** [remotecache.DevPodCache]. *)
Record DevPodCache := {
  dpc_Name : string;
  dpc_Namespace : string;
  dpc_TargetKind : string;
  dpc_TargetName : string;
  dpc_ReplicaSet : string;
}.

(** The zero value [GetDevPod] returns for an unknown dev pod. *)
Definition zeroDevPodCache : DevPodCache :=
  {| dpc_Name := ""; dpc_Namespace := ""; dpc_TargetKind := "";
     dpc_TargetName := ""; dpc_ReplicaSet := "" |}.

(** [target.GetObjectKind().GroupVersionKind().Kind] *)
Definition objectKind (o : Object) : string :=
  match o with
  | ObjReplicaSet t | ObjDeployment t | ObjStatefulSet t => Kind t
  | ObjOther k _ => k
  end.

(** [target.(metav1.Object).GetName()] *)
Definition objectName (o : Object) : string :=
  match o with
  | ObjReplicaSet t | ObjDeployment t | ObjStatefulSet t => Name t
  | ObjOther _ n => n
  end.

End Types.

Abbreviation ReplicaSet := AppsObject (only parsing).

(** ** The world outside replace.go *)

Inductive Resource := ReplicaSets | Deployments | StatefulSets.

(** [types.PatchType]. *)
Inductive PatchType := JSONPatchType | MergePatchType | StrategicMergePatchType.

Inductive LogLevel := LogDebug | LogInfo | LogWarn | LogDone.

Section Model.
Context `{K8sTypes}.

(** Functions of this repository that replace.go calls and that live in
    other files (package podreplace and pkg/util/patch). *)
Class Collaborators := {
  (** [buildReplicaSet(ctx, name, target, devPod)], the Replacement Builder *)
  buildReplicaSet : string -> Object -> DevPod -> result ReplicaSet;
  (** [hashConfig(devPod)], the Config Hasher *)
  hashConfig : DevPod -> result string;
  (** [patch2.MergeFrom(original).Data(modified)] *)
  mergePatchData : Object -> Object -> result string;
}.

(** Modelled from the spec: [patch.Type()] of a [patch2.MergeFrom] patch;
    the spec prescribes merge-patch semantics for every patch call. *)
Definition mergePatchType : PatchType := MergePatchType.

(** One call on the remote cache or on the cluster, together with the
    answer it got.  [EvPoll] marks the entry into [wait.Poll] with its
    interval and timeout. *)
Inductive Event :=
| EvGetDevPod (name : string) (entry : DevPodCache) (found : bool)
| EvSetDevPod (name : string) (entry : DevPodCache)
| EvSave (snapshot : gmap string DevPodCache) (r : option error)
| EvGet (ns name : string) (r : result ReplicaSet)
| EvCreate (ns : string) (obj : ReplicaSet) (r : result ReplicaSet)
| EvDelete (ns name : string) (r : option error)
| EvPatch (res : Resource) (ns name : string) (pt : PatchType)
    (data : string) (r : option error)
| EvCreatePVC (ns : string) (pvc : PersistentVolumeClaim) (r : option error)
| EvDeletePVC (ns name : string) (r : option error)
| EvGetPVC (ns name : string) (r : option error)
| EvFindTargetBySelector (devPod : DevPod) (r : result (option Object))
| EvFindTargetByKindName (kind ns name : string) (r : result Object)
| EvPoll (interval timeout : Z).

(** The cluster as replace.go reaches it through [ctx]: the typed client
    ([ctx.KubeClient.KubeClient()]), the Target Resolver, which reads the
    cluster, and the persistence of the remote cache.  [S] is the state of
    the cluster; every operation may change it and may fail. *)
Class Cluster (S : Type) := {
  (** [ctx.KubeClient.Namespace()] *)
  clientNamespace : string;
  (** [AppsV1().ReplicaSets(ns).Get(ctx, name, GetOptions{})] *)
  ReplicaSets_Get : string -> string -> S -> result ReplicaSet * S;
  (** [AppsV1().ReplicaSets(ns).Create(ctx, obj, CreateOptions{})] *)
  ReplicaSets_Create : string -> ReplicaSet -> S -> result ReplicaSet * S;
  (** [AppsV1().ReplicaSets(ns).Delete(ctx, name, DeleteOptions{})] *)
  ReplicaSets_Delete : string -> string -> S -> option error * S;
  (** [AppsV1().<Resource>(ns).Patch(ctx, name, type, data, PatchOptions{})];
      replace.go discards the object that comes back *)
  Apps_Patch : Resource -> string -> string -> PatchType -> string -> S ->
               option error * S;
  (** [CoreV1().PersistentVolumeClaims(ns).Create(...)], object discarded *)
  PersistentVolumeClaims_Create : string -> PersistentVolumeClaim -> S ->
                                  option error * S;
  (** [CoreV1().PersistentVolumeClaims(ns).Delete(...)] *)
  PersistentVolumeClaims_Delete : string -> string -> S -> option error * S;
  (** [CoreV1().PersistentVolumeClaims(ns).Get(...)], object discarded *)
  PersistentVolumeClaims_Get : string -> string -> S -> option error * S;
  (** [findTargetBySelector(ctx, devPod, nil)]: a target, no target, or an
      error *)
  findTargetBySelector : DevPod -> S -> result (option Object) * S;
  (** [findTargetByKindName(ctx, kind, namespace, name)] *)
  findTargetByKindName : string -> string -> string -> S -> result Object * S;
  (** [ctx.Config.RemoteCache().Save(ctx.Context, ctx.KubeClient)] of the
      given in-memory cache content *)
  RemoteCache_Save : gmap string DevPodCache -> S -> option error * S;
}.

(** What a run of the reconciler acts on: the cluster, the in-memory
    remote cache, the calls made so far (oldest first) and the log. *)
Record World (S : Type) := {
  cluster : S;
  remoteCache : gmap string DevPodCache;
  trace : list Event;
  logs : list (LogLevel * string * list string);
}.

(** Computations of replace.go: state passing over the world. *)
Definition Comp (S A : Type) : Type := World S -> A * World S.

#[global] Instance Comp_ret {S} : MRet (Comp S) := fun A a w => (a, w).
#[global] Instance Comp_bind {S} : MBind (Comp S) :=
  fun A B f m w => match m w with (a, w') => f a w' end.

End Model.

Arguments cluster {_ S} w.
Arguments remoteCache {_ S} w.
Arguments trace {_ S} w.
Arguments logs {_ S} w.
Arguments Build_World {_ S}.

(** ** replace.go *)

(** How a call of [ReplacePod] ends: it returns its [error] (possibly nil),
    or the recursion through [replace] was cut off by the fuel of the model.
    The Go code has no such cut-off. *)
Inductive Outcome :=
| Returned (err : option error)
| OutOfFuel.

Section Reconciler.
Context `{K8sTypes} `{!Collaborators} {S : Type} `{!Cluster S}.

Local Abbreviation M := (Comp S).

(** Perform one remote call on the cluster and record it with its answer. *)
Definition remote {A} (op : S -> A * S) (ev : A -> Event) : M A :=
  fun w =>
    match op (cluster w) with
    | (r, c) => (r, {| cluster := c; remoteCache := remoteCache w;
                       trace := trace w ++ [ev r]; logs := logs w |})
    end.

(** [ctx.Log.Debugf] and friends: level, format string, rendered arguments. *)
Definition Log (lvl : LogLevel) (format : string) (args : list string) : M unit :=
  fun w => (tt, {| cluster := cluster w; remoteCache := remoteCache w;
                   trace := trace w;
                   logs := logs w ++ [(lvl, format, args)] |}).

(** Modelled from the spec: [RemoteCache().GetDevPod(name) -> (entry, found)],
    a lookup in the in-memory cache keyed by dev pod name. *)
Definition GetDevPod (name : string) : M (DevPodCache * bool) :=
  fun w =>
    let r := match remoteCache w !! name with
             | Some e => (e, true)
             | None => (zeroDevPodCache, false)
             end in
    (r, {| cluster := cluster w; remoteCache := remoteCache w;
           trace := trace w ++ [EvGetDevPod name r.1 r.2]; logs := logs w |}).

(** Modelled from the spec: [RemoteCache().SetDevPod(name, entry)], an
    update of the in-memory cache; [Save] makes it durable. *)
Definition SetDevPod (name : string) (entry : DevPodCache) : M unit :=
  fun w => (tt, {| cluster := cluster w;
                   remoteCache := <[name := entry]> (remoteCache w);
                   trace := trace w ++ [EvSetDevPod name entry];
                   logs := logs w |}).

(** [RemoteCache().Save(ctx.Context, ctx.KubeClient)]: the cluster is asked
    to store the in-memory cache as it is now. *)
Definition Save : M (option error) :=
  fun w => remote (RemoteCache_Save (remoteCache w)) (EvSave (remoteCache w)) w.

(** Modelled from the spec: [wait.Poll(interval, timeout, condition)] tries
    the condition once per interval until it reports done or an error, or
    until the timeout has passed; then it returns [wait.ErrWaitTimeout].
    Time is counted in attempts: [timeout / interval] of them. *)
Fixpoint pollLoop (attempts : nat) (condition : M (bool * option error))
  : M (option error) :=
  match attempts with
  | O => mret (Some ErrWaitTimeout)
  | Datatypes.S n =>
      '(done, err) ← condition;
      match err with
      | Some err => mret (Some err)
      | None => if done : bool then mret None else pollLoop n condition
      end
  end.

Definition Poll (interval timeout : Z) (condition : M (bool * option error))
  : M (option error) :=
  fun w =>
    pollLoop (Z.to_nat (timeout / interval)) condition
      {| cluster := cluster w; remoteCache := remoteCache w;
         trace := trace w ++ [EvPoll interval timeout]; logs := logs w |}.

(** Modelled from the spec: [loader.EachDevContainer(devPod, each)] visits
    the dev-container descriptors of the dev pod in order and stops when
    [each] returns false.  [each] is a closure over local variables of the
    caller; their values are threaded as [St]. *)
Fixpoint eachDevContainer {St} (cs : list DevContainer)
    (each : DevContainer -> St -> St * bool) (s : St) : St :=
  match cs with
  | [] => s
  | c :: cs' =>
      match each c s with
      | (s', true) => eachDevContainer cs' each s'
      | (s', false) => s'
      end
  end.

Definition EachDevContainer {St} (devPod : DevPod)
    (each : DevContainer -> St -> St * bool) (s : St) : St :=
  eachDevContainer (dp_Containers devPod) each s.

(** Field updates of an [AppsObject]. *)
Definition withAnnotations (t : AppsObject) (a : gomap) : AppsObject :=
  {| Kind := Kind t; Name := Name t; Namespace := Namespace t; UID := UID t;
     Annotations := a; Replicas := Replicas t; Template := Template t |}.

Definition withReplicas (t : AppsObject) (r : option Z) : AppsObject :=
  {| Kind := Kind t; Name := Name t; Namespace := Namespace t; UID := UID t;
     Annotations := Annotations t; Replicas := r; Template := Template t |}.

Definition withTemplate (t : AppsObject) (p : PodTemplateSpec) : AppsObject :=
  {| Kind := Kind t; Name := Name t; Namespace := Namespace t; UID := UID t;
     Annotations := Annotations t; Replicas := Replicas t; Template := p |}.

(** [t.Annotations[k] = v] on a map known not to be nil.  (On a nil map Go
    panics; replace.go writes only after a nil check.) *)
Definition setAnnotation (t : AppsObject) (k v : string) : AppsObject :=
  withAnnotations t (Some (<[k := v]> (default ∅ (Annotations t)))).

(** *** scaleDownTarget *)

(** The body shared, word for word, by the three cases of the type switch
    of [scaleDownTarget]; they differ in the resource the patch goes to.
    [cloned] is [obj.DeepCopyObject()], [t] the object behind [obj], which
    is mutated in place: its final value is returned next to the error. *)
Definition scaleDownCase (res : Resource) (inj : AppsObject -> Object)
    (cloned : Object) (t : AppsObject) : M (Object * option error) :=
  let t := match Annotations t with
           | None => withAnnotations t (Some ∅)
           | Some _ => t
           end in
  let replicas := match Replicas t with
                  | Some r => r
                  | None => 1
                  end in
  if decide (replicas = 0) then mret (inj t, None)
  else
    let t := setAnnotation t ReplicasAnnotation (Itoa replicas) in
    let t := withReplicas t (Some 0) in
    match mergePatchData cloned (inj t) with
    | Err err => mret (inj t, Some err)
    | Ok bytes =>
        err ← remote (Apps_Patch res (Namespace t) (Name t) mergePatchType bytes)
                     (EvPatch res (Namespace t) (Name t) mergePatchType bytes);
        match err with
        | Some err => mret (inj t, Some err)
        | None => mret (inj t, None)
        end
    end.

Definition scaleDownTarget (obj : Object) : M (Object * option error) :=
  let cloned := obj in
  match obj with
  | ObjReplicaSet t => scaleDownCase ReplicaSets ObjReplicaSet cloned t
  | ObjDeployment t => scaleDownCase Deployments ObjDeployment cloned t
  | ObjStatefulSet t => scaleDownCase StatefulSets ObjStatefulSet cloned t
  | ObjOther _ _ => mret (obj, Some (Errorf "unrecognized object" []))
  end.

(** *** deleteReplicaSet *)

Definition deleteReplicaSet (replicaSet : ReplicaSet) : M (option error) :=
  err ← remote (ReplicaSets_Delete (Namespace replicaSet) (Name replicaSet))
               (EvDelete (Namespace replicaSet) (Name replicaSet));
  match err with
  | Some err =>
      if negb (IsNotFound err) then mret (Some (Wrap err "delete replica set"))
      else mret None
  | None => mret None
  end.

(** *** createPVC *)

Definition createPVC (replicaSet : ReplicaSet) (devPod : DevPod)
  : M (option error) :=
  let size : result Quantity :=
    match dp_PersistenceOptions devPod with
    | Some o =>
        if bool_decide (po_Size o ≠ "") then
          match ParseQuantity (po_Size o) with
          | Ok q => Ok q
          | Err err =>
              Err (Errorf "error parsing persistent volume size %s: %v"
                          [po_Size o; errorString err])
          end
        else Ok (MustParse "10Gi")
    | None => Ok (MustParse "10Gi")
    end in
  match size with
  | Err err => mret (Some err)
  | Ok size =>
      let storageClassName : option string :=
        match dp_PersistenceOptions devPod with
        | Some o =>
            if bool_decide (po_StorageClassName o ≠ "")
            then Some (po_StorageClassName o) else None
        | None => None
        end in
      let accessModes : list string :=
        match dp_PersistenceOptions devPod with
        | Some {| po_AccessModes := Some modes |} =>
            foldl (fun accessModes accessMode => accessModes ++ [accessMode])
                  [] modes
        | _ => ["ReadWriteOnce"]
        end in
      let explicitName : bool :=
        match dp_PersistenceOptions devPod with
        | Some o => bool_decide (po_Name o ≠ "")
        | None => false
        end in
      let name : string :=
        match dp_PersistenceOptions devPod with
        | Some o =>
            if bool_decide (po_Name o ≠ "") then po_Name o
            else Name replicaSet
        | None => Name replicaSet
        end in
      let claim : PersistentVolumeClaim :=
        {| pvc_Name := name;
           pvc_Namespace := Namespace replicaSet;
           pvc_OwnerReferences :=
             [ {| or_APIVersion := "apps/v1";
                  or_Kind := "ReplicaSet";
                  or_Name := Name replicaSet;
                  or_UID := UID replicaSet;
                  or_Controller := Some true |} ];
           pvc_AccessModes := accessModes;
           pvc_Requests := {[ "storage" := size ]};
           pvc_StorageClassName := storageClassName |} in
      err ← remote (PersistentVolumeClaims_Create (Namespace replicaSet) claim)
                   (EvCreatePVC (Namespace replicaSet) claim);
      match err with
      | Some err =>
          if IsAlreadyExists err && explicitName then
            Log LogInfo "PVC %s already exists for replaced pod %s"
                [name; Name replicaSet];;
            mret None
          else mret (Some err)
      | None =>
          Log LogDone "Created PVC %s for replaced pod %s"
              [name; Name replicaSet];;
          mret None
      end
  end.

(** *** updateNeeded *)

Definition updateNeeded (replicaSet : ReplicaSet) (devPod : DevPod)
  : M (bool * option error) :=
  if bool_decide (Annotations replicaSet = None)
     || bool_decide (mapIndex (Annotations replicaSet) TargetKindAnnotation = "")
     || bool_decide (mapIndex (Annotations replicaSet) TargetNameAnnotation = "")
  then
    err ← deleteReplicaSet replicaSet;
    mret (true, err)
  else
    let kind := mapIndex (Annotations replicaSet) TargetKindAnnotation in
    let name := mapIndex (Annotations replicaSet) TargetNameAnnotation in
    target ← remote (findTargetByKindName kind (Namespace replicaSet) name)
                    (EvFindTargetByKindName kind (Namespace replicaSet) name);
    match target with
    | Err err =>
        if IsNotFound err then
          err ← deleteReplicaSet replicaSet;
          mret (true, err)
        else
          Log LogDebug "error getting target for replicaSet %s/%s: %v"
              [Namespace replicaSet; Name replicaSet; errorString err];;
          mret (false, Some err)
    | Ok target =>
        match buildReplicaSet (Name replicaSet) target devPod with
        | Err err => mret (false, Some err)
        | Ok newReplicaSet =>
            match hashConfig devPod with
            | Err err => mret (false, Some (Wrap err "hash config"))
            | Ok configHash =>
                if SemanticDeepEqual (Template newReplicaSet) (Template replicaSet)
                   && bool_decide (configHash =
                        mapIndex (Annotations replicaSet) DevPodConfigHashAnnotation)
                then
                  '(_, err) ← scaleDownTarget target;
                  match err with
                  | Some err =>
                      Log LogWarn "Error scaling down target: %v" [errorString err]
                  | None => mret tt
                  end;;
                  mret (false, None)
                else
                  let originalReplicaSet := replicaSet in
                  let replicaSet := withTemplate replicaSet (Template newReplicaSet) in
                  let replicaSet :=
                    setAnnotation replicaSet DevPodConfigHashAnnotation configHash in
                  match mergePatchData (ObjReplicaSet originalReplicaSet)
                                       (ObjReplicaSet replicaSet) with
                  | Err err => mret (false, Some err)
                  | Ok patchBytes =>
                      err ← remote
                        (Apps_Patch ReplicaSets (Namespace replicaSet)
                           (Name replicaSet) mergePatchType patchBytes)
                        (EvPatch ReplicaSets (Namespace replicaSet)
                           (Name replicaSet) mergePatchType patchBytes);
                      mret (false, err)
                  end
            end
        end
    end.

(** *** replace

    [p.ReplacePod], which [replace] calls on a create conflict, is the
    parameter [ReplacePod]: the two methods are mutually recursive. *)
Definition replace (ReplacePod : DevPod -> M Outcome)
    (replicaSetName : string) (target : Object) (devPod : DevPod) : M Outcome :=
  match buildReplicaSet replicaSetName target devPod with
  | Err err => mret (Returned (Some err))
  | Ok replicaSetObj =>
      (* scale down parent *)
      '(_, err) ← scaleDownTarget target;
      match err with
      | Some err => mret (Returned (Some (Wrap err "scale down target")))
      | None =>
          Log LogDebug "Scaled down %s %s"
              [mapIndex (Annotations replicaSetObj) TargetKindAnnotation;
               mapIndex (Annotations replicaSetObj) TargetNameAnnotation];;
          (* create the replica set *)
          created ← remote
            (ReplicaSets_Create (Namespace replicaSetObj) replicaSetObj)
            (EvCreate (Namespace replicaSetObj) replicaSetObj);
          match created with
          | Err err =>
              if IsAlreadyExists err then
                Log LogInfo
                    "Pod was already replaced, retrying to update the configuration"
                    [];;
                ReplacePod devPod
              else mret (Returned (Some (Wrap err "create replica set")))
          | Ok replicaSet =>
              (* create a pvc if needed *)
              let hasPersistPath :=
                EachDevContainer devPod
                  (fun devContainer hasPersistPath =>
                     if (0 <? length (dc_PersistPaths devContainer))%nat
                     then (true, false)
                     else (hasPersistPath, true))
                  false in
              if hasPersistPath then
                err ← createPVC replicaSet devPod;
                match err with
                | Some err =>
                    if IsAlreadyExists err then
                      (* delete the old one and wait *)
                      remote
                        (PersistentVolumeClaims_Delete (Namespace replicaSet)
                           (Name replicaSet))
                        (EvDeletePVC (Namespace replicaSet) (Name replicaSet));;
                      Log LogInfo
                          "Waiting for old persistent volume claim to terminate" [];;
                      err ← Poll Second (Minute * 2)
                        (err ← remote
                           (PersistentVolumeClaims_Get (Namespace replicaSet)
                              (Name replicaSet))
                           (EvGetPVC (Namespace replicaSet) (Name replicaSet));
                         mret (from_option IsNotFound false err, None));
                      match err with
                      | Some err =>
                          mret (Returned
                                  (Some (Wrap err "waiting for pvc to terminate")))
                      | None =>
                          (* create the new one *)
                          err ← createPVC replicaSet devPod;
                          match err with
                          | Some err =>
                              mret (Returned
                                      (Some (Wrap err
                                               "create persistent volume claim")))
                          | None => mret (Returned None)
                          end
                      end
                    else
                      mret (Returned
                              (Some (Wrap err "create persistent volume claim")))
                | None => mret (Returned None)
                end
              else mret (Returned None)
          end
      end
  end.

(** *** ReplacePod *)

(** The second half of [ReplacePod], from "try to find a replaceable
    deployment statefulset etc." to the end.  Go reaches it by falling
    through from three places of the first half; here it is a computation
    of its own that those places end in.  [self] is [p], whose [replace]
    method calls [p.ReplacePod] again; [devPodCache] is the local variable
    of that name. *)
Definition ReplacePodRecreate (self : DevPod -> M Outcome) (devPod : DevPod)
    (devPodCache : DevPodCache) : M Outcome :=
  (* try to find a replaceable deployment statefulset etc. *)
  target ← remote (findTargetBySelector devPod) (EvFindTargetBySelector devPod);
  match target with
  | Err err => mret (Returned (Some err))
  | Ok None =>
      mret (Returned (Some (Errorf
        "couldn't find a matching deployment, statefulset or replica set" [])))
  | Ok (Some target) =>
      (* make sure we already save the cache here *)
      let devPodCache :=
        {| dpc_Name := dpc_Name devPodCache;
           dpc_Namespace := dpc_Namespace devPodCache;
           dpc_TargetKind := objectKind target;
           dpc_TargetName := objectName target;
           dpc_ReplicaSet := objectName target +:+ "-devspace" |} in
      SetDevPod (dpc_Name devPodCache) devPodCache;;
      err ← Save;
      match err with
      | Some err => mret (Returned (Some err))
      | None =>
          (* replace the pod *)
          Log LogDebug "Replacing %s %s..."
              [dpc_TargetKind devPodCache; dpc_TargetName devPodCache];;
          out ← replace self (dpc_ReplicaSet devPodCache) target devPod;
          match out with
          | Returned (Some err) => mret (Returned (Some err))
          | Returned None =>
              Log LogDebug "Successfully replaced %s %s"
                  [dpc_TargetKind devPodCache; dpc_TargetName devPodCache];;
              mret (Returned None)
          | OutOfFuel => mret OutOfFuel
          end
      end
  end.

(** The first half of [ReplacePod], ending either in a return or in the
    second half. *)
Definition ReplacePodBody (self : DevPod -> M Outcome) (devPod : DevPod)
  : M Outcome :=
  let namespace :=
    if bool_decide (dp_Namespace devPod = "") then clientNamespace
    else dp_Namespace devPod in
  '(devPodCache, ok) ← GetDevPod (dp_Name devPod);
  let devPodCache :=
    if negb ok then
      {| dpc_Name := dp_Name devPod; dpc_Namespace := namespace;
         dpc_TargetKind := dpc_TargetKind devPodCache;
         dpc_TargetName := dpc_TargetName devPodCache;
         dpc_ReplicaSet := dpc_ReplicaSet devPodCache |}
    else devPodCache in
  let recreate := ReplacePodRecreate self devPod devPodCache in
  (* did we already replace a pod? *)
  if bool_decide (dpc_ReplicaSet devPodCache ≠ "") then
    Log LogDebug "Try to find replaced replica set..." [];;
    (* find the replaced replica set *)
    found ← remote
      (ReplicaSets_Get (dpc_Namespace devPodCache) (dpc_Name devPodCache))
      (EvGet (dpc_Namespace devPodCache) (dpc_Name devPodCache));
    match found with
    | Err err =>
        if negb (IsNotFound err)
        then mret (Returned (Some (Wrap err "find devspace replica set")))
        else recreate
    | Ok replicaSet =>
        '(recreateNeeded, err) ← updateNeeded replicaSet devPod;
        match err with
        | Some err => mret (Returned (Some err))
        | None =>
            if negb recreateNeeded then
              Log LogDebug "No changes required in replaced replica set %s"
                  [Name replicaSet];;
              mret (Returned None)
            else recreate
        end
    end
  else recreate.

(** [ReplacePod] itself: the recursion through [replace] is unbounded in
    the Go code; [fuel] bounds the number of nested calls in the model. *)
Fixpoint ReplacePod (fuel : nat) (devPod : DevPod) : M Outcome :=
  match fuel with
  | O => mret OutOfFuel
  | Datatypes.S fuel' => ReplacePodBody (ReplacePod fuel') devPod
  end.

End Reconciler.

(** ** A scripted cluster, for running the reconciler on concrete inputs *)

Module Fake.

(** Pod templates are image names, quantities their canonical text. *)
#[global] Instance types : K8sTypes := {|
  PodTemplateSpec := string;
  SemanticDeepEqual := String.eqb;
  Quantity := string;
  ParseQuantity := fun s =>
    if bool_decide (s = "") then Err (Errorf "quantity is empty" []) else Ok s;
  MustParse := fun s => s;
|}.

(** A builder, hasher and patch encoder in the sense of the spec: the
    replacement has one replica, the three annotations, and the image of
    the dev pod as its template. *)
#[global] Instance collaborators : Collaborators := {|
  hashConfig := fun devPod => Ok ("h-" +:+ dp_ImageSelector devPod);
  buildReplicaSet := fun name target devPod =>
    match target with
    | ObjOther _ _ => Err (Errorf "unrecognized object" [])
    | ObjReplicaSet t | ObjDeployment t | ObjStatefulSet t =>
        Ok {| Kind := "ReplicaSet"; Name := name; Namespace := Namespace t;
              UID := "";
              Annotations := Some (
                <[TargetKindAnnotation := Kind t]> (
                <[TargetNameAnnotation := Name t]> (
                <[DevPodConfigHashAnnotation := "h-" +:+ dp_ImageSelector devPod]>
                ∅)));
              Replicas := Some 1;
              Template := dp_ImageSelector devPod |}
    end;
  mergePatchData := fun original modified =>
    Ok ("merge-patch:" +:+ objectName modified);
|}.

(** What the cluster answers to one call. *)
Inductive Answer :=
| Fine
| Fails (e : error)
| Gives (rs : ReplicaSet)
| Finds (target : option Object).

Definition notFound : error := StatusError StatusReasonNotFound "not found".
Definition alreadyExists : error :=
  StatusError StatusReasonAlreadyExists "already exists".
Definition forbidden : error := StatusError (StatusReasonOther "Forbidden") "forbidden".

(** The cluster state is the list of answers still to give, one per call in
    the order the calls arrive; when the list is used up every call
    succeeds and every lookup finds nothing. *)
Definition next (s : list Answer) : Answer * list Answer :=
  match s with
  | a :: s' => (a, s')
  | [] => (Fine, [])
  end.

Definition errorOnly (s : list Answer) : option error * list Answer :=
  match next s with
  | (Fails e, s') => (Some e, s')
  | (_, s') => (None, s')
  end.

#[global] Instance scripted : Cluster (list Answer) := {|
  clientNamespace := "default";
  ReplicaSets_Get := fun ns name s =>
    match next s with
    | (Gives rs, s') => (Ok rs, s')
    | (Fails e, s') => (Err e, s')
    | (_, s') => (Err notFound, s')
    end;
  ReplicaSets_Create := fun ns obj s =>
    match next s with
    | (Gives rs, s') => (Ok rs, s')
    | (Fails e, s') => (Err e, s')
    | (_, s') => (Ok obj, s')
    end;
  ReplicaSets_Delete := fun ns name => errorOnly;
  Apps_Patch := fun res ns name pt data => errorOnly;
  PersistentVolumeClaims_Create := fun ns claim => errorOnly;
  PersistentVolumeClaims_Delete := fun ns name => errorOnly;
  PersistentVolumeClaims_Get := fun ns name => errorOnly;
  findTargetBySelector := fun devPod s =>
    match next s with
    | (Finds o, s') => (Ok o, s')
    | (Fails e, s') => (Err e, s')
    | (_, s') => (Ok None, s')
    end;
  findTargetByKindName := fun kind ns name s =>
    match next s with
    | (Finds (Some o), s') => (Ok o, s')
    | (Fails e, s') => (Err e, s')
    | (_, s') => (Err notFound, s')
    end;
  RemoteCache_Save := fun snapshot => errorOnly;
|}.

(** A cluster in which the deployment [api-deploy], scaled down, and its
    replacement [api-deploy-devspace] exist and nothing ever changes: the
    replacement is found under its own name only, and creating it again
    conflicts.  [target] is what the Target Resolver finds. *)
Definition occupiedGet (replacement : ReplicaSet) (name : string)
  : result ReplicaSet :=
  if bool_decide (name = Name replacement) then Ok replacement else Err notFound.

Definition occupied (target : AppsObject) (replacement : ReplicaSet)
  : Cluster unit := {|
  clientNamespace := "default";
  ReplicaSets_Get := fun ns name s => (occupiedGet replacement name, s);
  ReplicaSets_Create := fun ns obj s =>
    (if bool_decide (Name obj = Name replacement)
     then Err alreadyExists else Ok obj, s);
  ReplicaSets_Delete := fun ns name s => (None, s);
  Apps_Patch := fun res ns name pt data s => (None, s);
  PersistentVolumeClaims_Create := fun ns claim s => (None, s);
  PersistentVolumeClaims_Delete := fun ns name s => (None, s);
  PersistentVolumeClaims_Get := fun ns name s => (Some notFound, s);
  findTargetBySelector := fun devPod s => (Ok (Some (ObjDeployment target)), s);
  findTargetByKindName := fun kind ns name s => (Ok (ObjDeployment target), s);
  RemoteCache_Save := fun snapshot s => (None, s);
|}.

(** A world with the given answers and cache, and no history. *)
Definition world (answers : list Answer) (cache : gmap string DevPodCache)
  : World (list Answer) :=
  {| cluster := answers; remoteCache := cache; trace := []; logs := [] |}.

(** The scenario of the spec: dev pod [api] selects the 3-replica
    deployment [api-deploy]. *)
Definition apiDeploy : AppsObject :=
  {| Kind := "Deployment"; Name := "api-deploy"; Namespace := "default";
     UID := "uid-1"; Annotations := None; Replicas := Some 3;
     Template := "nginx" |}.

Definition api : DevPod :=
  {| dp_Name := "api"; dp_Namespace := ""; dp_LabelSelector := ∅;
     dp_ImageSelector := "devimage"; dp_Containers := [];
     dp_PersistenceOptions := None |}.

(** The replacement that the builder derives for [api] from [apiDeploy]. *)
Definition apiReplacement : AppsObject :=
  {| Kind := "ReplicaSet"; Name := "api-deploy-devspace";
     Namespace := "default"; UID := "";
     Annotations := Some (
       <[TargetKindAnnotation := "Deployment"]> (
       <[TargetNameAnnotation := "api-deploy"]> (
       <[DevPodConfigHashAnnotation := "h-devimage"]> ∅)));
     Replicas := Some 1; Template := "devimage" |}.

(** The cache entry [ReplacePod] leaves behind for [api]. *)
Definition apiEntry : DevPodCache :=
  {| dpc_Name := "api"; dpc_Namespace := "default";
     dpc_TargetKind := "Deployment"; dpc_TargetName := "api-deploy";
     dpc_ReplicaSet := "api-deploy-devspace" |}.

(** The same replacement without its annotations. *)
Definition staleReplacement : AppsObject :=
  {| Kind := "ReplicaSet"; Name := "api-deploy-devspace";
     Namespace := "default"; UID := ""; Annotations := None;
     Replicas := Some 1; Template := "devimage" |}.

(** [api] after its image was changed. *)
Definition apiChanged : DevPod :=
  {| dp_Name := "api"; dp_Namespace := ""; dp_LabelSelector := ∅;
     dp_ImageSelector := "devimage2"; dp_Containers := [];
     dp_PersistenceOptions := None |}.

(** [api] with a persisted path. *)
Definition apiPersist : DevPod :=
  {| dp_Name := "api"; dp_Namespace := ""; dp_LabelSelector := ∅;
     dp_ImageSelector := "devimage";
     dp_Containers := [ {| dc_Container := "app"; dc_PersistPaths := ["/data"] |} ];
     dp_PersistenceOptions := None |}.

(** [api] with a persisted path and an explicit claim name. *)
Definition apiShared : DevPod :=
  {| dp_Name := "api"; dp_Namespace := ""; dp_LabelSelector := ∅;
     dp_ImageSelector := "devimage";
     dp_Containers := [ {| dc_Container := "app"; dc_PersistPaths := ["/data"] |} ];
     dp_PersistenceOptions :=
       Some {| po_Size := ""; po_StorageClassName := "";
               po_AccessModes := None; po_Name := "shared-data" |} |}.

(** The claim [createPVC] asks for on behalf of [apiShared]. *)
Definition sharedClaim : PersistentVolumeClaim :=
  {| pvc_Name := "shared-data"; pvc_Namespace := "default";
     pvc_OwnerReferences :=
       [ {| or_APIVersion := "apps/v1"; or_Kind := "ReplicaSet";
            or_Name := "api-deploy-devspace"; or_UID := "";
            or_Controller := Some true |} ];
     pvc_AccessModes := ["ReadWriteOnce"];
     pvc_Requests := {[ "storage" := "10Gi" ]};
     pvc_StorageClassName := None |}.

(** The claim [createPVC] asks for on behalf of [apiPersist]. *)
Definition defaultClaim : PersistentVolumeClaim :=
  {| pvc_Name := "api-deploy-devspace"; pvc_Namespace := "default";
     pvc_OwnerReferences :=
       [ {| or_APIVersion := "apps/v1"; or_Kind := "ReplicaSet";
            or_Name := "api-deploy-devspace"; or_UID := "";
            or_Controller := Some true |} ];
     pvc_AccessModes := ["ReadWriteOnce"];
     pvc_Requests := {[ "storage" := "10Gi" ]};
     pvc_StorageClassName := None |}.

(** [api-deploy] once it has been scaled down. *)
Definition apiDeployScaled : AppsObject :=
  {| Kind := "Deployment"; Name := "api-deploy"; Namespace := "default";
     UID := "uid-1";
     Annotations := Some (<[ReplicasAnnotation := "3"]> ∅);
     Replicas := Some 0; Template := "nginx" |}.

(** A cluster without state in which every write succeeds, no replica set
    and no claim exists, and the Target Resolver finds [target]. *)
Definition quiet `{K8sTypes} (target : option Object) : Cluster unit := {|
  clientNamespace := "default";
  ReplicaSets_Get := fun ns name s => (Err notFound, s);
  ReplicaSets_Create := fun ns obj s => (Ok obj, s);
  ReplicaSets_Delete := fun ns name s => (None, s);
  Apps_Patch := fun res ns name pt data s => (None, s);
  PersistentVolumeClaims_Create := fun ns claim s => (None, s);
  PersistentVolumeClaims_Delete := fun ns name s => (None, s);
  PersistentVolumeClaims_Get := fun ns name s => (Some notFound, s);
  findTargetBySelector := fun devPod s => (Ok target, s);
  findTargetByKindName := fun kind ns name s =>
    (match target with Some o => Ok o | None => Err notFound end, s);
  RemoteCache_Save := fun snapshot s => (None, s);
|}.

(** A world of the quiet cluster with the given cache, and no history. *)
Definition still `{K8sTypes} (cache : gmap string DevPodCache) : World unit :=
  {| cluster := tt; remoteCache := cache; trace := []; logs := [] |}.

(** Pod templates and quantities as in [types], except that a quantity has
    to start with a digit. *)
Definition picky : K8sTypes := {|
  PodTemplateSpec := string;
  SemanticDeepEqual := String.eqb;
  Quantity := string;
  ParseQuantity := fun s =>
    match s with
    | String c _ =>
        match Ascii.is_nat c with
        | Some _ => Ok s
        | None => Err (Errorf "quantities must match the regular expression" [])
        end
    | EmptyString => Err (Errorf "quantity is empty" [])
    end;
  MustParse := fun s => s;
|}.

(** A replacement over [picky], and a dev pod that asks for a claim of size
    "lots". *)
Definition pickyReplacement : @AppsObject picky :=
  @Build_AppsObject picky "ReplicaSet" "api-deploy-devspace" "default" "" None
    (Some 1) "devimage".

Definition apiLots : DevPod :=
  {| dp_Name := "api"; dp_Namespace := ""; dp_LabelSelector := ∅;
     dp_ImageSelector := "devimage";
     dp_Containers := [ {| dc_Container := "app"; dc_PersistPaths := ["/data"] |} ];
     dp_PersistenceOptions :=
       Some {| po_Size := "lots"; po_StorageClassName := "";
               po_AccessModes := None; po_Name := "" |} |}.

(** [api] with a persisted path and every persistence option but the name
    set. *)
Definition apiSized : DevPod :=
  {| dp_Name := "api"; dp_Namespace := ""; dp_LabelSelector := ∅;
     dp_ImageSelector := "devimage";
     dp_Containers := [ {| dc_Container := "app"; dc_PersistPaths := ["/data"] |} ];
     dp_PersistenceOptions :=
       Some {| po_Size := "20Gi"; po_StorageClassName := "fast";
               po_AccessModes := Some ["ReadWriteMany"; "ReadOnlyMany"];
               po_Name := "" |} |}.

(** A target of a kind that cannot be replaced. *)
Definition apiJob : Object := ObjOther "Job" "api-job".

End Fake.

(** ** Vocabulary of the properties *)

(** The object of dynamic type [res] behind a [runtime.Object]. *)
Definition inject `{K8sTypes} (res : Resource) : AppsObject -> Object :=
  match res with
  | ReplicaSets => ObjReplicaSet
  | Deployments => ObjDeployment
  | StatefulSets => ObjStatefulSet
  end.

(** The owner reference [createPVC] writes: the replica set as controller. *)
Definition ownerReferenceTo `{K8sTypes} (replicaSet : ReplicaSet)
  : OwnerReference :=
  {| or_APIVersion := "apps/v1"; or_Kind := "ReplicaSet";
     or_Name := Name replicaSet; or_UID := UID replicaSet;
     or_Controller := Some true |}.

(** [devPod.PersistenceOptions.Name], empty when there are no options. *)
Definition explicitClaimName `{K8sTypes} (devPod : DevPod) : string :=
  from_option po_Name "" (dp_PersistenceOptions devPod).

(** What [deleteReplicaSet] makes of the answer to its delete call. *)
Definition deleteOutcome (answer : option error) : option error :=
  match answer with
  | Some e => if IsNotFound e then None else Some (Wrap e "delete replica set")
  | None => None
  end.

(** The world after one more remote call. *)
Definition afterCall `{K8sTypes} {S} (w : World S) (c : S) (ev : Event)
  : World S :=
  {| cluster := c; remoteCache := remoteCache w; trace := trace w ++ [ev];
     logs := logs w |}.

(** The world after one more log entry. *)
Definition logged `{K8sTypes} {S} (w : World S) (lvl : LogLevel)
    (format : string) (args : list string) : World S :=
  {| cluster := cluster w; remoteCache := remoteCache w; trace := trace w;
     logs := logs w ++ [(lvl, format, args)] |}.

(** Some dev container of the dev pod asks for persisted paths. *)
Definition hasPersistPath `{K8sTypes} (devPod : DevPod) : Prop :=
  Exists (fun devContainer => dc_PersistPaths devContainer <> [])
         (dp_Containers devPod).

(** An answer to a claim lookup that is not a not-found error: the claim
    is still there, or the lookup failed otherwise. *)
Definition stillThere (answer : option error) : Prop :=
  from_option IsNotFound false answer = false.

(** The calls replace.go makes, without their arguments and answers. *)
Inductive Call :=
| CallGetDevPod | CallSetDevPod | CallSave
| CallGet | CallCreate | CallDelete | CallPatch
| CallCreatePVC | CallDeletePVC | CallGetPVC
| CallFindTargetBySelector | CallFindTargetByKindName
| CallPoll.

#[global] Instance Call_eq_dec : EqDecision Call.
Proof. solve_decision. Defined.

Definition callOf `{K8sTypes} (ev : Event) : Call :=
  match ev with
  | EvGetDevPod _ _ _ => CallGetDevPod
  | EvSetDevPod _ _ => CallSetDevPod
  | EvSave _ _ => CallSave
  | EvGet _ _ _ => CallGet
  | EvCreate _ _ _ => CallCreate
  | EvDelete _ _ _ => CallDelete
  | EvPatch _ _ _ _ _ _ => CallPatch
  | EvCreatePVC _ _ _ => CallCreatePVC
  | EvDeletePVC _ _ _ => CallDeletePVC
  | EvGetPVC _ _ _ => CallGetPVC
  | EvFindTargetBySelector _ _ => CallFindTargetBySelector
  | EvFindTargetByKindName _ _ _ _ => CallFindTargetByKindName
  | EvPoll _ _ => CallPoll
  end.

(** How often a call occurs among events. *)
Definition calls `{K8sTypes} (c : Call) (evs : list Event) : nat :=
  length (filter (fun ev => callOf ev = c) evs).

(** A replacement creation that was refused because the object exists. *)
Definition isCreateConflict `{K8sTypes} (ev : Event) : bool :=
  match ev with
  | EvCreate _ _ (Err e) => IsAlreadyExists e
  | _ => false
  end.

Definition conflicts `{K8sTypes} (evs : list Event) : nat :=
  length (filter (fun ev => isCreateConflict ev = true) evs).

(** How often one pass of [ReplacePod] makes a call at most: once, except
    for the claim creation of [replace], which is made a second time after
    the delete. *)
Definition perPass (c : Call) : nat :=
  match c with
  | CallCreatePVC => 2
  | _ => 1
  end.

(** The events of one pass of [ReplacePod] after its [GetDevPod]: no
    further [GetDevPod], and no call more often than [perPass] allows.
    The claim lookups are left out: the termination poll repeats them
    until the claim is gone or the poll gives up, and how often that is
    lies with [wait.Poll]. *)
Definition onePass `{K8sTypes} (body : list Event) : Prop :=
  calls CallGetDevPod body = 0%nat /\
  forall c, c <> CallGetPVC -> (calls c body <= perPass c)%nat.

(** The events of a whole call of [ReplacePod], by its outcome.  They are
    a sequence of passes, each starting with the [GetDevPod] at the top of
    [ReplacePod].  A pass without a create conflict is the last one and
    returns; a pass with a create conflict is followed by the events of the
    retry.  The model, and only the model, can also stop before a pass for
    lack of fuel. *)
Inductive passes `{K8sTypes} : Outcome -> list Event -> Prop :=
| passes_fuel : passes OutOfFuel []
| passes_last name entry found body err :
    onePass body -> conflicts body = 0%nat ->
    passes (Returned err) (EvGetDevPod name entry found :: body)
| passes_retry name entry found body rest out :
    onePass body -> conflicts body = 1%nat ->
    passes out rest ->
    passes out (EvGetDevPod name entry found :: body ++ rest).

(** What holds of the events of a call of [ReplacePod] with the given
    fuel: they are passes as above, at most as many as there was fuel, and
    the fuel runs out only after as many conflicts as there was fuel. *)
Definition passInvariant `{K8sTypes} (fuel : nat) (out : Outcome)
    (evs : list Event) : Prop :=
  passes out evs /\
  (calls CallGetDevPod evs <= fuel)%nat /\
  (out = OutOfFuel -> conflicts evs = fuel).

(** The calls of [updateNeeded]: at most one target lookup, one delete and
    one patch. *)
Definition updateBound (c : Call) : nat :=
  match c with
  | CallFindTargetByKindName | CallDelete | CallPatch => 1
  | _ => 0
  end.

(** The calls [replace] makes itself, before a retry if there is one. *)
Definition replaceBound (c : Call) : nat :=
  match c with
  | CallPatch | CallCreate | CallDeletePVC | CallPoll => 1
  | CallCreatePVC => 2
  | CallGetPVC => 120
  | _ => 0
  end.

(** The calls of the second half of [ReplacePod], before a retry. *)
Definition recreateBound (c : Call) : nat :=
  match c with
  | CallFindTargetBySelector | CallSetDevPod | CallSave => 1
  | _ => replaceBound c
  end.

(** [self], standing for [ReplacePod] with the given fuel, keeps the
    invariant of the passes. *)
Definition obeys `{K8sTypes} {S : Type} (fuel : nat)
    (self : DevPod -> Comp S Outcome) : Prop :=
  forall devPod w, exists evs,
    trace (self devPod w).2 = trace w ++ evs /\
    passInvariant fuel (self devPod w).1 evs.

(** The apps object behind a [runtime.Object], if it is of a supported
    kind. *)
Definition appsObject `{K8sTypes} (o : Object) : option AppsObject :=
  match o with
  | ObjReplicaSet t | ObjDeployment t | ObjStatefulSet t => Some t
  | ObjOther _ _ => None
  end.

(** The resource a supported [runtime.Object] belongs to. *)
Definition resourceOf `{K8sTypes} (o : Object) : option Resource :=
  match o with
  | ObjReplicaSet _ => Some ReplicaSets
  | ObjDeployment _ => Some Deployments
  | ObjStatefulSet _ => Some StatefulSets
  | ObjOther _ _ => None
  end.

(** The key under which [ReplacePod] stores the cache entry of a dev pod:
    the [Name] field of the entry it found, or the dev pod name when it
    found none. *)
Definition cacheKey `{K8sTypes} (devPod : DevPod)
    (cache : gmap string DevPodCache) : string :=
  match cache !! dp_Name devPod with
  | Some entry => dpc_Name entry
  | None => dp_Name devPod
  end.

(** The cache entry [ReplacePod] writes for [target], given the name and
    namespace of the entry it works on. *)
Definition entryFor `{K8sTypes} (name namespace : string) (target : Object)
  : DevPodCache :=
  {| dpc_Name := name; dpc_Namespace := namespace;
     dpc_TargetKind := objectKind target;
     dpc_TargetName := objectName target;
     dpc_ReplicaSet := objectName target +:+ "-devspace" |}.

(** The namespace [ReplacePod] works in for a dev pod: the one of the
    cache entry it found, or, when it found none, the namespace of the dev
    pod, which defaults to the namespace of the client. *)
Definition cacheNamespace `{K8sTypes} {S : Type} `{!Cluster S}
    (devPod : DevPod) (cache : gmap string DevPodCache) : string :=
  match cache !! dp_Name devPod with
  | Some entry => dpc_Namespace entry
  | None =>
      if bool_decide (dp_Namespace devPod = "") then clientNamespace
      else dp_Namespace devPod
  end.

(** The cluster never answers the creation of a replica set with an
    already-exists error. *)
Definition neverConflicts `{K8sTypes} {S : Type} `{!Cluster S} : Prop :=
  forall ns obj c e,
    (ReplicaSets_Create ns obj c).1 = Err e -> IsAlreadyExists e = false.

(** What the second half of [ReplacePod] makes of the outcome of
    [replace]: a success is logged, everything else is passed on. *)
Definition replaced `{K8sTypes} {S : Type} (args : list string)
    (r : Outcome * World S) : Outcome * World S :=
  match r.1 with
  | Returned None =>
      (Returned None, logged r.2 LogDebug "Successfully replaced %s %s" args)
  | _ => r
  end.

(** The replica set a claim call has to refer to: the one created last,
    if its creation succeeded. *)
Definition ownerStep `{K8sTypes} (owner : option ReplicaSet) (ev : Event)
  : option ReplicaSet :=
  match ev with
  | EvCreate _ _ (Ok replicaSet) => Some replicaSet
  | EvCreate _ _ (Err _) => None
  | _ => owner
  end.

(** A claim call is in order when some dev container persists paths and
    the call concerns the replica set created last: a created claim lies
    in its namespace and is owned by it, a deleted or looked-up claim is
    in its namespace and named like it.  Other calls are always in
    order. *)
Definition claimOwned `{K8sTypes} (devPod : DevPod)
    (owner : option ReplicaSet) (ev : Event) : Prop :=
  match ev with
  | EvCreatePVC ns claim _ =>
      exists replicaSet, owner = Some replicaSet /\ hasPersistPath devPod /\
        ns = Namespace replicaSet /\
        pvc_Namespace claim = Namespace replicaSet /\
        pvc_OwnerReferences claim = [ownerReferenceTo replicaSet]
  | EvDeletePVC ns name _ | EvGetPVC ns name _ =>
      exists replicaSet, owner = Some replicaSet /\ hasPersistPath devPod /\
        ns = Namespace replicaSet /\ name = Name replicaSet
  | EvPoll _ _ => hasPersistPath devPod
  | _ => True
  end.

Fixpoint claimsOwned `{K8sTypes} (devPod : DevPod)
    (owner : option ReplicaSet) (evs : list Event) : Prop :=
  match evs with
  | [] => True
  | ev :: evs =>
      claimOwned devPod owner ev /\ claimsOwned devPod (ownerStep owner ev) evs
  end.

(** [w'] continues [w] by events whose claim calls are in order. *)
Definition ownPass `{K8sTypes} {S : Type} (devPod : DevPod)
    (w w' : World S) : Prop :=
  exists own, trace w' = trace w ++ own /\ claimsOwned devPod None own.


(** * Properties *)

(** Unfold the plumbing of the state-passing monad. *)
Ltac run :=
  repeat (progress (
    unfold mbind, mret, Comp_bind, Comp_ret, remote, Log in *;
    cbn beta iota delta [fst snd cluster remoteCache trace logs] in *)).

Section Properties.
Context `{K8sTypes} `{!Collaborators} {S : Type} `{!Cluster S}.

Lemma scaleDownTarget_inject res t w :
  scaleDownTarget (inject res t) w =
  scaleDownCase res (inject res) (inject res t) t w.
Proof. by destruct res. Qed.

(** C5.  [scaleDownTarget] on a target of one of the three supported kinds
    returns the object [t'] it has made of the target, which keeps kind,
    name, namespace, UID, pod template and every annotation under another
    key than the replicas annotation, and whose annotation map is not nil.
    If the replica count (unset counts as 1) is already zero, it returns
    success with the world unchanged (no patch call), and [t'] has the
    replica count and the replicas annotation of the target: nothing is
    written.  For a non-zero count, [t'] has zero replicas and, under the
    replicas annotation, the count in decimal ([pretty], which is never
    "0" here), and exactly one merge patch, from the untouched target to
    [t'], is applied; if the patch cannot be encoded, that error is
    returned and nothing is sent. *)
Theorem scaleDownTarget_idempotent (res : Resource) (t : AppsObject)
    (w : World S) :
  let replicas := default 1 (Replicas t) in
  let r := scaleDownTarget (inject res t) w in
  exists t' : AppsObject,
    r.1.1 = inject res t' /\
    Kind t' = Kind t /\ Name t' = Name t /\ Namespace t' = Namespace t /\
    UID t' = UID t /\ Template t' = Template t /\
    Annotations t' <> None /\
    (forall k, k <> ReplicasAnnotation ->
       mapIndex (Annotations t') k = mapIndex (Annotations t) k) /\
    if decide (replicas = 0) then
      r.2 = w /\ r.1.2 = None /\
      Replicas t' = Replicas t /\
      mapIndex (Annotations t') ReplicasAnnotation =
        mapIndex (Annotations t) ReplicasAnnotation
    else
      Replicas t' = Some 0 /\
      mapIndex (Annotations t') ReplicasAnnotation = pretty replicas /\
      pretty replicas <> "0" /\
      match mergePatchData (inject res t) (inject res t') with
      | Ok bytes =>
          let answer :=
            Apps_Patch res (Namespace t) (Name t) MergePatchType bytes (cluster w) in
          r.1.2 = answer.1 /\
          cluster r.2 = answer.2 /\
          remoteCache r.2 = remoteCache w /\ logs r.2 = logs w /\
          trace r.2 =
            trace w ++ [EvPatch res (Namespace t) (Name t) MergePatchType bytes answer.1]
      | Err e => r.1.2 = Some e /\ r.2 = w
      end.
Proof.
  intros replicas r. subst r replicas. rewrite scaleDownTarget_inject.
  exists (if decide (default 1 (Replicas t) = 0)
          then withAnnotations t (Some (default ∅ (Annotations t)))
          else withReplicas
                 (withAnnotations t
                    (Some (<[ReplicasAnnotation := Itoa (default 1 (Replicas t))]>
                             (default ∅ (Annotations t)))))
                 (Some 0)).
  unfold scaleDownCase, setAnnotation, withReplicas, withAnnotations, Itoa.
  destruct t as [k n ns u [a|] [rp|] tpl]; cbn [Annotations Replicas default id
    Namespace Name Kind UID Template];
    (destruct (decide _) as [Hz|Hnz];
     [run; split_and!; try done; by intros ? ?|]).
  all: split_and!; try done.
  all: try (intros k' Hne; unfold mapIndex; cbn [Annotations];
            rewrite lookup_insert_ne by done; done).
  all: try (unfold mapIndex; cbn [Annotations]; by rewrite lookup_insert_eq).
  all: try (intros Heq; apply Hnz; apply (inj (pretty : Z -> string));
            exact Heq).
  all: destruct (mergePatchData _ _) as [bytes|e]; run; [|done].
  all: by destruct (Apps_Patch _ _ _ _ _ _) as [[e|] c].
Qed.


(** C7.  For a dev pod without [PersistenceOptions], [createPVC] sends one
    create call, for a claim named like the replacement replica set that
    requests exactly 10Gi of storage, with the single access mode
    ReadWriteOnce and no storage class. *)
Theorem createPVC_defaults (replicaSet : ReplicaSet) (devPod : DevPod)
    (w : World S) :
  dp_PersistenceOptions devPod = None ->
  exists claim answer,
    trace (createPVC replicaSet devPod w).2 =
      trace w ++ [EvCreatePVC (Namespace replicaSet) claim answer] /\
    pvc_Requests claim = {[ "storage" := MustParse "10Gi" ]} /\
    pvc_AccessModes claim = ["ReadWriteOnce"] /\
    pvc_StorageClassName claim = None /\
    pvc_Name claim = Name replicaSet.
Proof.
  intros Hnone. unfold createPVC. rewrite Hnone. run.
  destruct (PersistentVolumeClaims_Create _ _ _) as [[e|] c]; run;
    [destruct (IsAlreadyExists e); cbn [andb]; run|];
    eexists _, _; (split; [reflexivity|done]).
Qed.

Lemma no_new_events {A} (l evs : list A) : l = l ++ evs -> evs = [].
Proof.
  intros Heq. apply (app_inv_head l). by rewrite app_nil_r.
Qed.

(** [scaleDownTarget] makes at most one call, a merge patch, and touches
    neither the cache nor the log. *)
Lemma scaleDownTarget_calls (obj : Object) (w : World S) :
  let r := scaleDownTarget obj w in
  remoteCache r.2 = remoteCache w /\ logs r.2 = logs w /\
  (r.2 = w \/
   exists res ns name bytes answer,
     trace r.2 = trace w ++ [EvPatch res ns name MergePatchType bytes answer]).
Proof.
  destruct obj as [t|t|t|k n]; cbn zeta; unfold scaleDownTarget, scaleDownCase;
    try (by run; auto);
    (destruct (decide _); [by run; auto|]);
    (destruct (mergePatchData _ _); [|by run; auto]); run;
    (destruct (Apps_Patch _ _ _ _ _ _) as [[e|] c]; run;
     split_and!; try done; right; by eexists _, _, _, _, _).
Qed.

(** [deleteReplicaSet] makes exactly the delete call. *)
Lemma deleteReplicaSet_run (replicaSet : ReplicaSet) (w : World S) :
  let d := ReplicaSets_Delete (Namespace replicaSet) (Name replicaSet) (cluster w) in
  deleteReplicaSet replicaSet w =
    (deleteOutcome d.1,
     {| cluster := d.2; remoteCache := remoteCache w;
        trace := trace w ++ [EvDelete (Namespace replicaSet) (Name replicaSet) d.1];
        logs := logs w |}).
Proof.
  cbn zeta. unfold deleteReplicaSet. run.
  destruct (ReplicaSets_Delete _ _ _) as [[e|] c]; run; [|done].
  unfold deleteOutcome. by destruct (IsNotFound e).
Qed.

(** [createPVC] either fails before any call (the size does not parse) or
    makes exactly one create call; which of the two, and for which claim,
    depends on the replica set and the dev pod only. *)
Lemma createPVC_run (replicaSet : ReplicaSet) (devPod : DevPod) :
  (exists e, IsAlreadyExists e = false /\
     forall w : World S, createPVC replicaSet devPod w = (Some e, w)) \/
  (exists claim,
     pvc_OwnerReferences claim = [ownerReferenceTo replicaSet] /\
     pvc_Name claim =
       (if bool_decide (explicitClaimName devPod ≠ "")
        then explicitClaimName devPod else Name replicaSet) /\
     forall w : World S,
     let r := createPVC replicaSet devPod w in
     let a := PersistentVolumeClaims_Create (Namespace replicaSet) claim (cluster w) in
     trace r.2 = trace w ++ [EvCreatePVC (Namespace replicaSet) claim a.1] /\
     cluster r.2 = a.2 /\ remoteCache r.2 = remoteCache w /\
     r.1 = match a.1 with
           | Some e =>
               if IsAlreadyExists e && bool_decide (explicitClaimName devPod ≠ "")
               then None else Some e
           | None => None
           end).
Proof.
  unfold createPVC, explicitClaimName.
  destruct (match dp_PersistenceOptions devPod with Some _ => _ | None => _ end)
    as [size|err] eqn:Hsize; run.
  2:{ left. exists err. split; [|done].
      destruct (dp_PersistenceOptions devPod) as [o|]; [|done].
      destruct (bool_decide _); [|done].
      destruct (ParseQuantity _); by simplify_eq. }
  right.
  match goal with
  | |- context [@Build_PersistentVolumeClaim ?h ?a ?b ?c ?d ?e ?f] =>
      exists (@Build_PersistentVolumeClaim h a b c d e f)
  end.
  split; [reflexivity|]. split.
  { cbn [pvc_Name]. destruct (dp_PersistenceOptions devPod) as [o|];
      cbn [from_option]; [done|].
    by rewrite (bool_decide_eq_false_2 ("" ≠ "")) by (intros Hx; by apply Hx). }
  intros w. cbn zeta.
  destruct (PersistentVolumeClaims_Create _ _ _) as [[e|] c] eqn:Hc; run;
    [|done].
  destruct (dp_PersistenceOptions devPod) as [o|]; cbn [from_option].
  - destruct (bool_decide (po_Name o ≠ "")); rewrite ?andb_false_r, ?andb_true_r;
      destruct (IsAlreadyExists e) eqn:Hae; run; by split_and!.
  - rewrite (bool_decide_eq_false_2 ("" ≠ "")) by (intros Hx; by apply Hx).
    rewrite andb_false_r. run. by split_and!.
Qed.

(** C6, as the code has it.  Whatever the persistence options say, every
    claim [createPVC] asks the cluster to create carries the controller
    owner reference to the replacement replica set; and when an explicit
    claim name was supplied the claim has that name and an already-exists
    answer makes [createPVC] return nil. *)
Theorem createPVC_owner_reference (replicaSet : ReplicaSet) (devPod : DevPod)
    (w : World S) (evs : list Event) (ns : string)
    (claim : PersistentVolumeClaim) (answer : option error) :
  trace (createPVC replicaSet devPod w).2 = trace w ++ evs ->
  EvCreatePVC ns claim answer ∈ evs ->
  pvc_OwnerReferences claim = [ownerReferenceTo replicaSet] /\
  (explicitClaimName devPod <> "" ->
   pvc_Name claim = explicitClaimName devPod /\
   forall e, answer = Some e -> IsAlreadyExists e = true ->
             (createPVC replicaSet devPod w).1 = None).
Proof.
  intros Htr Hin.
  destruct (createPVC_run replicaSet devPod)
    as [(e & _ & He)|(cl & Howner & Hname & Hcl)].
  { rewrite He in Htr. apply no_new_events in Htr. subst evs.
    by apply elem_of_nil in Hin. }
  destruct (Hcl w) as (Htr' & _ & _ & Hres).
  rewrite Htr' in Htr. apply app_inv_head in Htr. subst evs.
  apply list_elem_of_singleton in Hin. injection Hin as -> -> ->.
  split; [done|]. intros Hexp.
  rewrite bool_decide_eq_true_2 in Hname, Hres by done.
  split; [done|]. intros e He Hae. rewrite He in Hres.
  rewrite Hres. by rewrite Hae.
Qed.

(** The guard at the top of [updateNeeded]: the replacement lacks one of
    its two target annotations. *)
Lemma unmanaged_guard (replicaSet : ReplicaSet) :
  bool_decide (Annotations replicaSet = None)
  || bool_decide (mapIndex (Annotations replicaSet) TargetKindAnnotation = "")
  || bool_decide (mapIndex (Annotations replicaSet) TargetNameAnnotation = "")
  = true <->
  mapIndex (Annotations replicaSet) TargetKindAnnotation = "" \/
  mapIndex (Annotations replicaSet) TargetNameAnnotation = "".
Proof.
  rewrite !orb_true_iff, !bool_decide_eq_true. split; [|tauto].
  intros [[Hnil|?]|?]; auto. left. by rewrite Hnil.
Qed.

Lemma managed_guard (replicaSet : ReplicaSet) :
  mapIndex (Annotations replicaSet) TargetKindAnnotation <> "" ->
  mapIndex (Annotations replicaSet) TargetNameAnnotation <> "" ->
  bool_decide (Annotations replicaSet = None)
  || bool_decide (mapIndex (Annotations replicaSet) TargetKindAnnotation = "")
  || bool_decide (mapIndex (Annotations replicaSet) TargetNameAnnotation = "")
  = false.
Proof.
  intros Hk Hn. apply not_true_is_false. rewrite unmanaged_guard. tauto.
Qed.


(** When the desired template and hash equal the live ones,
    [updateNeeded] returns [(false, nil)] whatever the scale-down of the
    target answers; an error of the scale-down only adds a warning to the
    log. *)
Lemma updateNeeded_no_change (replicaSet : ReplicaSet)
    (devPod : DevPod) (w : World S) (target : Object) (c : S)
    (newReplicaSet : ReplicaSet) (configHash : string) :
  let kind := mapIndex (Annotations replicaSet) TargetKindAnnotation in
  let name := mapIndex (Annotations replicaSet) TargetNameAnnotation in
  let ns := Namespace replicaSet in
  kind <> "" -> name <> "" ->
  findTargetByKindName kind ns name (cluster w) = (Ok target, c) ->
  buildReplicaSet (Name replicaSet) target devPod = Ok newReplicaSet ->
  hashConfig devPod = Ok configHash ->
  SemanticDeepEqual (Template newReplicaSet) (Template replicaSet) = true ->
  configHash = mapIndex (Annotations replicaSet) DevPodConfigHashAnnotation ->
  let r := updateNeeded replicaSet devPod w in
  let scaled :=
    scaleDownTarget target
      (afterCall w c (EvFindTargetByKindName kind ns name (Ok target))) in
  r.1 = (false, None) /\
  logs r.2 =
    logs w ++ match scaled.1.2 with
              | Some err =>
                  [(LogWarn, "Error scaling down target: %v", [errorString err])]
              | None => []
              end.
Proof.
  cbn zeta. intros Hk Hn Hfind Hbuild Hhash Heq Hh.
  unfold updateNeeded. rewrite managed_guard by done.
  run. rewrite Hfind. run. rewrite Hbuild, Hhash, Heq.
  rewrite bool_decide_eq_true_2 by done. cbn [andb]. run.
  unfold afterCall.
  pose proof (scaleDownTarget_calls target
    {| cluster := c; remoteCache := remoteCache w;
       trace := trace w ++
         [EvFindTargetByKindName
            (mapIndex (Annotations replicaSet) TargetKindAnnotation)
            (Namespace replicaSet)
            (mapIndex (Annotations replicaSet) TargetNameAnnotation)
            (Ok target)];
       logs := logs w |}) as (_ & Hlogs & _).
  cbn zeta in Hlogs. run.
  destruct (scaleDownTarget target _) as [[obj [err|]] w']; run.
  - by rewrite Hlogs.
  - by rewrite Hlogs, app_nil_r.
Qed.

(** C10.  Let the cache of the dev pod name a replacement, the fetch of
    [ReplacePod] return [replicaSet], its annotated target resolve, and the
    desired template and hash equal the live ones.  Then [updateNeeded]
    returns [(false, nil)] and [ReplacePod] returns nil, whatever the
    scale-down of the target answers; an error of the scale-down only adds
    a warning to the log. *)
Theorem updateNeeded_swallows_scale_down_error (fuel : nat) (devPod : DevPod)
    (w : World S) (entry : DevPodCache) (replicaSet : ReplicaSet)
    (target : Object) (c0 c1 : S) (newReplicaSet : ReplicaSet)
    (configHash : string) :
  let kind := mapIndex (Annotations replicaSet) TargetKindAnnotation in
  let name := mapIndex (Annotations replicaSet) TargetNameAnnotation in
  let ns := Namespace replicaSet in
  remoteCache w !! dp_Name devPod = Some entry ->
  dpc_ReplicaSet entry <> "" ->
  ReplicaSets_Get (dpc_Namespace entry) (dpc_Name entry) (cluster w) =
    (Ok replicaSet, c0) ->
  kind <> "" -> name <> "" ->
  findTargetByKindName kind ns name c0 = (Ok target, c1) ->
  buildReplicaSet (Name replicaSet) target devPod = Ok newReplicaSet ->
  hashConfig devPod = Ok configHash ->
  SemanticDeepEqual (Template newReplicaSet) (Template replicaSet) = true ->
  configHash = mapIndex (Annotations replicaSet) DevPodConfigHashAnnotation ->
  let w1 :=
    afterCall
      (logged
         (afterCall w (cluster w) (EvGetDevPod (dp_Name devPod) entry true))
         LogDebug "Try to find replaced replica set..." [])
      c0 (EvGet (dpc_Namespace entry) (dpc_Name entry) (Ok replicaSet)) in
  let u := updateNeeded replicaSet devPod w1 in
  let scaled :=
    scaleDownTarget target
      (afterCall w1 c1 (EvFindTargetByKindName kind ns name (Ok target))) in
  u.1 = (false, None) /\
  logs u.2 =
    logs w1 ++ match scaled.1.2 with
               | Some err =>
                   [(LogWarn, "Error scaling down target: %v", [errorString err])]
               | None => []
               end /\
  (ReplacePod (Datatypes.S fuel) devPod w).1 = Returned None.
Proof.
  cbn zeta. intros Hentry Hrs Hget Hk Hn Hfind Hbuild Hhash Heq Hh.
  match goal with |- context [updateNeeded replicaSet devPod ?w1] =>
    destruct (updateNeeded_no_change replicaSet devPod w1 target c1
                newReplicaSet configHash Hk Hn Hfind Hbuild Hhash Heq Hh)
      as [Hu Hlogs] end.
  split; [exact Hu|]. split; [exact Hlogs|].
  cbn [ReplacePod]. unfold ReplacePodBody, GetDevPod. run. cbn zeta.
  rewrite Hentry. cbn [fst snd negb].
  rewrite (bool_decide_eq_true_2 _ Hrs). run. rewrite Hget. run.
  unfold afterCall, logged in Hu. cbn [cluster remoteCache trace logs] in Hu.
  destruct (updateNeeded replicaSet devPod _) as [[recreateNeeded err] w2].
  cbn [fst] in Hu. injection Hu as -> ->. by run.
Qed.

(** C2.  For a replacement whose annotated target resolves, and whose
    desired form and hash can be built, [updateNeeded] never asks for a
    recreate and never deletes or creates anything.  If template and hash
    both equal the live ones, its only further calls are those of the
    scale-down of the target.  Otherwise it sends one merge patch for the
    replacement and returns the answer.  The patch is computed from the
    live object to the object [modified], which has the pod template of
    the desired replacement and the new hash under the config-hash
    annotation, and is the live object in everything else: kind, name,
    namespace, UID, replica count and every other annotation.  If the
    patch cannot be encoded that error is returned and nothing is sent. *)
Theorem updateNeeded_patches_in_place (replicaSet : ReplicaSet)
    (devPod : DevPod) (w : World S) (target : Object) (c : S)
    (newReplicaSet : ReplicaSet) (configHash : string) :
  let kind := mapIndex (Annotations replicaSet) TargetKindAnnotation in
  let name := mapIndex (Annotations replicaSet) TargetNameAnnotation in
  let ns := Namespace replicaSet in
  kind <> "" -> name <> "" ->
  findTargetByKindName kind ns name (cluster w) = (Ok target, c) ->
  buildReplicaSet (Name replicaSet) target devPod = Ok newReplicaSet ->
  hashConfig devPod = Ok configHash ->
  let found := EvFindTargetByKindName kind ns name (Ok target) in
  let same :=
    SemanticDeepEqual (Template newReplicaSet) (Template replicaSet)
    && bool_decide (configHash =
         mapIndex (Annotations replicaSet) DevPodConfigHashAnnotation) in
  let r := updateNeeded replicaSet devPod w in
  r.1.1 = false /\
  (exists evs, trace r.2 = trace w ++ evs /\
     Forall (fun ev => callOf ev <> CallDelete /\ callOf ev <> CallCreate) evs) /\
  (same = true ->
   r.1.2 = None /\
   trace r.2 = trace (scaleDownTarget target (afterCall w c found)).2) /\
  (same = false ->
   exists modified : ReplicaSet,
     Template modified = Template newReplicaSet /\
     mapIndex (Annotations modified) DevPodConfigHashAnnotation = configHash /\
     (forall k, k <> DevPodConfigHashAnnotation ->
        mapIndex (Annotations modified) k = mapIndex (Annotations replicaSet) k) /\
     Kind modified = Kind replicaSet /\ Name modified = Name replicaSet /\
     Namespace modified = Namespace replicaSet /\
     UID modified = UID replicaSet /\
     Replicas modified = Replicas replicaSet /\
     match mergePatchData (ObjReplicaSet replicaSet) (ObjReplicaSet modified) with
     | Ok bytes =>
         let p :=
           Apps_Patch ReplicaSets ns (Name replicaSet) MergePatchType bytes c in
         r.1.2 = p.1 /\ cluster r.2 = p.2 /\
         trace r.2 =
           trace w ++
           [found;
            EvPatch ReplicaSets ns (Name replicaSet) MergePatchType bytes p.1]
     | Err e =>
         r.1.2 = Some e /\ cluster r.2 = c /\ trace r.2 = trace w ++ [found]
     end).
Proof.
  cbn zeta. intros Hk Hn Hfind Hbuild Hhash.
  unfold updateNeeded. rewrite managed_guard by done.
  run. rewrite Hfind. run. rewrite Hbuild, Hhash.
  destruct (SemanticDeepEqual _ _ && bool_decide _) eqn:Hsame; run.
  - unfold afterCall.
    pose proof (scaleDownTarget_calls target
      {| cluster := c; remoteCache := remoteCache w;
         trace := trace w ++
           [EvFindTargetByKindName
              (mapIndex (Annotations replicaSet) TargetKindAnnotation)
              (Namespace replicaSet)
              (mapIndex (Annotations replicaSet) TargetNameAnnotation)
              (Ok target)];
         logs := logs w |}) as (_ & _ & Hcalls).
    cbn zeta in Hcalls.
    destruct (scaleDownTarget target _) as [[obj [err|]] w']; run;
      (split_and!; try done);
      destruct Hcalls as [->|(res & ns' & n' & bytes & a & ->)]; run;
      rewrite <- ?app_assoc; (eexists; split; [done|]); by repeat constructor.
  - split_and!; try done.
    + by destruct (mergePatchData _ _); run;
        [destruct (Apps_Patch _ _ _ _ _ _)|].
    + destruct (mergePatchData _ _); run;
        [destruct (Apps_Patch _ _ _ _ _ _)|]; run;
        rewrite <- ?app_assoc; (eexists; split; [done|]); by repeat constructor.
    + intros _.
      exists (setAnnotation (withTemplate replicaSet (Template newReplicaSet))
                DevPodConfigHashAnnotation configHash).
      split_and!; try done.
      * unfold setAnnotation, withTemplate, withAnnotations, mapIndex.
        cbn [Annotations]. by rewrite lookup_insert_eq.
      * intros k Hne.
        unfold setAnnotation, withTemplate, withAnnotations, mapIndex.
        cbn [Annotations]. rewrite lookup_insert_ne by done.
        by destruct (Annotations replicaSet).
      * unfold setAnnotation, withTemplate in *.
        cbn [Annotations Namespace Name] in *.
        destruct (mergePatchData _ _) as [bytes|e]; run; [|done].
        destruct (Apps_Patch _ _ _ _ _ _). run. by rewrite <- app_assoc.
Qed.

(** The closure [replace] hands to [EachDevContainer] finds out whether
    some dev container has persisted paths. *)
Lemma eachDevContainer_hasPersistPath (cs : list DevContainer) (seen : bool) :
  eachDevContainer cs
    (fun devContainer hasPersistPath =>
       if (0 <? length (dc_PersistPaths devContainer))%nat
       then (true, false) else (hasPersistPath, true)) seen = true <->
  seen = true \/ Exists (fun dc => dc_PersistPaths dc <> []) cs.
Proof.
  induction cs as [|dc cs IH]; cbn [eachDevContainer].
  - rewrite Exists_nil. tauto.
  - rewrite Exists_cons. destruct (dc_PersistPaths dc) as [|p ps]; cbn.
    + rewrite IH. intuition congruence.
    + intuition congruence.
Qed.

(** The termination poll of [replace]: at most [n] lookups of the claim;
    it ends with nil at the first not-found answer, and with the timeout
    error after [n] answers none of which was not-found. *)
Lemma pollLoop_lookups (n : nat) (ns name : string) (w : World S) :
  let r := pollLoop n
    (err ← remote (PersistentVolumeClaims_Get ns name) (EvGetPVC ns name);
     mret (from_option IsNotFound false err, None)) w in
  exists answers,
    trace r.2 = trace w ++ map (EvGetPVC ns name) answers /\
    remoteCache r.2 = remoteCache w /\
    (length answers <= n)%nat /\
    ((r.1 = Some ErrWaitTimeout /\ length answers = n /\
      Forall stillThere answers) \/
     (r.1 = None /\
      exists before e, answers = before ++ [Some e] /\ IsNotFound e = true /\
                       Forall stillThere before)).
Proof.
  revert w. induction n as [|n IH]; intros w; cbn zeta.
  - exists []. cbn. rewrite app_nil_r. split_and!; try done. left. by split_and!.
  - cbn [pollLoop]. run.
    destruct (PersistentVolumeClaims_Get ns name (cluster w)) as [a c]. run.
    destruct (from_option IsNotFound false a) eqn:Ha; run.
    + exists [a]. cbn. split_and!; try done; [lia|]. right. split; [done|].
      destruct a as [e|]; [|done]. exists [], e. by split_and!.
    + match goal with |- context [pollLoop n ?cond ?w'] =>
        destruct (IH w') as (answers & Htr & Hcache & Hlen & Hend) end.
      cbn zeta in *. run. exists (a :: answers). rewrite Htr. cbn.
      rewrite <- app_assoc. split_and!; try done; [lia|].
      destruct Hend as [(Hr & Hn & Hall)|(Hr & before & e & -> & He & Hall)].
      * left. split_and!; [done|lia|by constructor].
      * right. split; [done|]. exists (a :: before), e.
        split_and!; [done|done|by constructor].
Qed.

(** C8.  Let [replace] have built the replacement, scaled the target down
    and created the replica set, let some dev container ask for persisted
    paths, and let [createPVC] return an already-exists error (which it
    does only when no explicit claim name was given).  Then [replace]
    deletes the claim named like the replica set, enters [wait.Poll] with
    an interval of one second and a timeout of two minutes, and looks the
    claim up at most 120 times.  After 120 answers that were not not-found
    it returns the wrapped timeout error and makes no further call; after
    a not-found answer it calls [createPVC] exactly once more and returns
    its outcome. *)
Theorem replace_pvc_conflict (self : DevPod -> Comp S Outcome)
    (replicaSetName : string) (target : Object) (devPod : DevPod)
    (w w1 : World S) (replicaSetObj replicaSet : ReplicaSet) (obj' : Object)
    (c2 : S) (e : error) :
  buildReplicaSet replicaSetName target devPod = Ok replicaSetObj ->
  scaleDownTarget target w = ((obj', None), w1) ->
  ReplicaSets_Create (Namespace replicaSetObj) replicaSetObj (cluster w1) =
    (Ok replicaSet, c2) ->
  hasPersistPath devPod ->
  let w2 :=
    afterCall
      (logged w1 LogDebug "Scaled down %s %s"
         [mapIndex (Annotations replicaSetObj) TargetKindAnnotation;
          mapIndex (Annotations replicaSetObj) TargetNameAnnotation])
      c2 (EvCreate (Namespace replicaSetObj) replicaSetObj (Ok replicaSet)) in
  let first := createPVC replicaSet devPod w2 in
  first.1 = Some e -> IsAlreadyExists e = true ->
  let ns := Namespace replicaSet in
  let name := Name replicaSet in
  let d := PersistentVolumeClaims_Delete ns name (cluster first.2) in
  let r := replace self replicaSetName target devPod w in
  explicitClaimName devPod = "" /\
  exists answers tail,
    trace r.2 =
      trace first.2 ++
      [EvDeletePVC ns name d.1; EvPoll 1000000000 120000000000] ++
      map (EvGetPVC ns name) answers ++ tail /\
    (length answers <= 120)%nat /\
    ((length answers = 120%nat /\ Forall stillThere answers /\ tail = [] /\
      r.1 = Returned (Some (Wrap ErrWaitTimeout "waiting for pvc to terminate")))
     \/
     (exists before g claim a,
        answers = before ++ [Some g] /\ IsNotFound g = true /\
        Forall stillThere before /\
        tail = [EvCreatePVC ns claim a] /\
        r.1 = Returned
                match a with
                | Some e' => Some (Wrap e' "create persistent volume claim")
                | None => None
                end)).
Proof.
  intros Hbuild Hscale Hcreate Hpersist w2 first Hfirst Hexists ns name d r.
  destruct (createPVC_run replicaSet devPod)
    as [(e0 & He0 & Hfail)|(claim & _ & _ & Hcl)].
  { subst first. rewrite Hfail in Hfirst. cbn in Hfirst. congruence. }
  assert (Hexplicit : explicitClaimName devPod = "").
  { destruct (Hcl w2) as (_ & _ & _ & Hres). fold first in Hres.
    rewrite Hfirst in Hres.
    destruct (decide (explicitClaimName devPod = "")) as [|Hne]; [done|].
    rewrite (bool_decide_eq_true_2 _ Hne) in Hres.
    destruct (PersistentVolumeClaims_Create _ _ _).1 as [e'|]; [|done].
    rewrite andb_true_r in Hres. destruct (IsAlreadyExists e') eqn:He'; [done|].
    congruence. }
  split; [done|].
  subst r. unfold replace. rewrite Hbuild. run. rewrite Hscale. run.
  rewrite Hcreate. run.
  unfold EachDevContainer.
  rewrite (proj2 (eachDevContainer_hasPersistPath _ false)) by (by right).
  subst d first w2 ns name. unfold afterCall, logged in *.
  destruct (createPVC replicaSet devPod _) as [res3 w3]. cbn [fst snd] in *.
  subst res3. rewrite Hexists. run.
  destruct (PersistentVolumeClaims_Delete _ _ _) as [da c4]. run.
  unfold Poll. change (Z.to_nat (Minute * 2 / Second)) with 120%nat. run.
  match goal with |- context [pollLoop 120 ?cond ?w'] =>
    pose proof (pollLoop_lookups 120 (Namespace replicaSet) (Name replicaSet) w')
      as Hp;
    cbn zeta in Hp;
    change (pollLoop 120 _ w') with (pollLoop 120 cond w') in Hp;
    destruct Hp as (answers & Htr & Hcache & Hlen & Hend) end.
  run.
  destruct (pollLoop _ _ _) as [pr w5]. cbn [fst snd] in *.
  destruct Hend as [(-> & Hn & Hall)|(-> & before & g & -> & Hg & Hall)]; run.
  - exists answers, []. rewrite Htr, app_nil_r, <- !app_assoc.
    split_and!; [done|done|]. left. by split_and!.
  - destruct (Hcl w5) as (Htr2 & _ & _ & Hres). cbn zeta in *.
    rewrite Hexplicit in Hres.
    rewrite (bool_decide_eq_false_2 ("" ≠ "")) in Hres by (intros Hx; by apply Hx).
    destruct (createPVC replicaSet devPod w5) as [res6 w6]. cbn [fst snd] in *.
    exists (before ++ [Some g]), [EvCreatePVC (Namespace replicaSet) claim res6].
    assert (Hres' : res6 =
      (PersistentVolumeClaims_Create (Namespace replicaSet) claim (cluster w5)).1).
    { rewrite Hres. destruct (PersistentVolumeClaims_Create _ _ _).1; [|done].
      by rewrite andb_false_r. }
    rewrite <- Hres' in Htr2. clear Hres Hres'.
    split_and!; [|done|].
    + destruct res6; run; rewrite Htr2, Htr, <- !app_assoc; done.
    + right. exists before, g, claim, res6. split_and!; try done.
      by destruct res6.
Qed.

(** *** Counting calls *)

Lemma calls_app (c : Call) (l1 l2 : list Event) :
  calls c (l1 ++ l2) = (calls c l1 + calls c l2)%nat.
Proof. unfold calls. by rewrite filter_app, length_app. Qed.

Lemma calls_cons (c : Call) (ev : Event) (l : list Event) :
  calls c (ev :: l) =
  ((if decide (callOf ev = c) then 1 else 0) + calls c l)%nat.
Proof. unfold calls. rewrite filter_cons. by destruct (decide _). Qed.

Lemma calls_nil (c : Call) : calls c [] = 0%nat.
Proof. done. Qed.

Lemma conflicts_app (l1 l2 : list Event) :
  conflicts (l1 ++ l2) = (conflicts l1 + conflicts l2)%nat.
Proof. unfold conflicts. by rewrite filter_app, length_app. Qed.

Lemma conflicts_cons (ev : Event) (l : list Event) :
  conflicts (ev :: l) =
  ((if isCreateConflict ev then 1 else 0) + conflicts l)%nat.
Proof.
  unfold conflicts. rewrite filter_cons.
  destruct (decide _) as [->|Hn]; [done|]. by destruct (isCreateConflict ev).
Qed.

Lemma conflicts_nil : conflicts [] = 0%nat.
Proof. done. Qed.

Lemma calls_lookups (c : Call) (ns name : string) (answers : list (option error)) :
  calls c (map (EvGetPVC ns name) answers) =
  if decide (c = CallGetPVC) then length answers else 0%nat.
Proof.
  induction answers as [|a answers IH]; [by destruct (decide _)|].
  cbn [map]. rewrite calls_cons, IH. cbn [callOf length].
  destruct c; by cbn.
Qed.

Lemma conflicts_lookups (ns name : string) (answers : list (option error)) :
  conflicts (map (EvGetPVC ns name) answers) = 0%nat.
Proof.
  induction answers as [|a answers IH]; [done|].
  cbn [map]. by rewrite conflicts_cons, IH.
Qed.

End Properties.

(** Bring counts over concrete events and appended traces to arithmetic. *)
Ltac count_calls :=
  repeat first
    [ rewrite calls_app | rewrite conflicts_app
    | rewrite calls_cons | rewrite conflicts_cons
    | rewrite calls_lookups | rewrite conflicts_lookups
    | match goal with
      | |- context [calls ?c []] => change (calls c []) with 0%nat
      | |- context [conflicts []] => change (conflicts []) with 0%nat
      end ];
  cbn [callOf isCreateConflict perPass];
  repeat (destruct (decide _); try done).

Section Passes.
Context `{K8sTypes} `{!Collaborators} {S : Type} `{!Cluster S}.

(** [updateNeeded] stays within [updateBound], and sends no patch when it
    asks for a recreate. *)
Lemma updateNeeded_calls (replicaSet : ReplicaSet) (devPod : DevPod)
    (w : World S) :
  let r := updateNeeded replicaSet devPod w in
  exists evs,
    trace r.2 = trace w ++ evs /\
    conflicts evs = 0%nat /\
    (forall c, calls c evs <= updateBound c)%nat /\
    (r.1.1 = true -> calls CallPatch evs = 0%nat).
Proof.
  cbn zeta. unfold updateNeeded.
  destruct (_ || _ || _); run.
  { rewrite deleteReplicaSet_run. run. eexists. split; [done|].
    split_and!; [done|intros []; count_calls; cbn; lia|done]. }
  destruct (findTargetByKindName _ _ _ _) as [[target|e] c]; run.
  2:{ destruct (IsNotFound e); run.
      - rewrite deleteReplicaSet_run. run. rewrite <- app_assoc.
        eexists. split; [done|].
        split_and!; [done|intros []; count_calls; cbn; lia|done].
      - eexists. split; [done|].
        split_and!; [done|intros []; count_calls; cbn; lia|done]. }
  destruct (buildReplicaSet _ _ _); run.
  2:{ eexists. split; [done|].
      split_and!; [done|intros []; count_calls; cbn; lia|done]. }
  destruct (hashConfig _); run.
  2:{ eexists. split; [done|].
      split_and!; [done|intros []; count_calls; cbn; lia|done]. }
  destruct (_ && _); run.
  - match goal with |- context [scaleDownTarget target ?w'] =>
      pose proof (scaleDownTarget_calls target w') as (_ & _ & Hcalls) end.
    cbn zeta in Hcalls.
    destruct (scaleDownTarget target _) as [[obj [err|]] w']; run;
      destruct Hcalls as [->|(res & ns' & n' & bytes & ans & ->)]; run;
      rewrite <- ?app_assoc; (eexists; split; [done|]);
      (split_and!; [done|intros []; count_calls; cbn; lia|done]).
  - destruct (mergePatchData _ _); run;
      [destruct (Apps_Patch _ _ _ _ _ _)|]; run;
      rewrite <- ?app_assoc; (eexists; split; [done|]);
      (split_and!; [done|intros []; count_calls; cbn; lia|done]).
Qed.

(** [replace] stays within [replaceBound] before it either ends or, after
    one conflict, hands over to [self]. *)
Lemma replace_calls (fuel : nat) (self : DevPod -> Comp S Outcome)
    (replicaSetName : string) (target : Object) (devPod : DevPod)
    (w : World S) :
  obeys fuel self ->
  let r := replace self replicaSetName target devPod w in
  exists own rest,
    trace r.2 = trace w ++ own ++ rest /\
    calls CallGetDevPod own = 0%nat /\
    (forall c, calls c own <= replaceBound c)%nat /\
    ((conflicts own = 0%nat /\ rest = [] /\ r.1 <> OutOfFuel) \/
     (conflicts own = 1%nat /\ passInvariant fuel r.1 rest)).
Proof.
  intros Hself. cbn zeta. unfold replace.
  destruct (buildReplicaSet _ _ _) as [replicaSetObj|e]; run.
  2:{ exists [], []. rewrite app_nil_r. split_and!; try done.
      - intros c. rewrite calls_nil. lia.
      - by left. }
  pose proof (scaleDownTarget_calls target w) as (_ & _ & Hscale).
  cbn zeta in Hscale.
  destruct (scaleDownTarget target w) as [[obj err] w1]. cbn [fst snd] in *.
  assert (exists scaled, trace w1 = trace w ++ scaled /\
            (scaled = [] \/ exists res ns n bytes a,
               scaled = [EvPatch res ns n MergePatchType bytes a]))
    as (scaled & Hw1 & Hscaled).
  { destruct Hscale as [->|(res & ns & n & bytes & a & ->)].
    - exists []. rewrite app_nil_r. auto.
    - eexists. split; [done|]. right. by eexists _, _, _, _, _. }
  clear Hscale.
  assert (Hsc : forall c, (calls c scaled <=
            match c with CallPatch => 1 | _ => 0 end)%nat).
  { destruct Hscaled as [->|(res & ns & n & bytes & a & ->)];
      intros []; count_calls; cbn; lia. }
  assert (Hsc0 : conflicts scaled = 0%nat).
  { by destruct Hscaled as [->|(res & ns & n & bytes & a & ->)]. }
  clear Hscaled.
  destruct err as [err|]; run.
  { rewrite Hw1. exists scaled, []. rewrite app_nil_r. split; [done|].
    split_and!.
    - specialize (Hsc CallGetDevPod). cbn in Hsc. lia.
    - intros c. specialize (Hsc c). destruct c; cbn in *; lia.
    - left. by split_and!. }
  destruct (ReplicaSets_Create _ _ _) as [[replicaSet|e] c2]; run.
  2:{ rewrite Hw1. destruct (IsAlreadyExists e) eqn:Hae; run.
      - match goal with |- context [self devPod ?w'] =>
          destruct (Hself devPod w') as (rest & Htr & Hinv);
          destruct (self devPod w') as [out wf] end.
        cbn [trace fst snd] in *. rewrite Htr, <- !app_assoc.
        eexists (scaled ++ [_]), rest. rewrite <- !app_assoc.
        split; [reflexivity|]. split_and!.
        + count_calls. specialize (Hsc CallGetDevPod). cbn in Hsc. lia.
        + intros c. specialize (Hsc c).
          destruct c; count_calls; cbn in *; lia.
        + right. split; [|done]. count_calls. rewrite Hae, Hsc0. cbn. lia.
      - exists (scaled ++ [EvCreate (Namespace replicaSetObj) replicaSetObj (Err e)]), [].
        rewrite app_nil_r, <- !app_assoc. split; [reflexivity|]. split_and!.
        + count_calls. specialize (Hsc CallGetDevPod). cbn in Hsc. lia.
        + intros c. specialize (Hsc c).
          destruct c; count_calls; cbn in *; lia.
        + left. split_and!; try done. count_calls. rewrite Hae, Hsc0. cbn. lia. }
  (* the replica set was created: the claim handling *)
  match goal with |- context [@Build_World ?h ?s ?c ?rc ?tr ?lg] =>
    set (w2 := @Build_World h s c rc tr lg) end.
  assert (Hw2 : trace w2 = trace w ++ scaled ++
            [EvCreate (Namespace replicaSetObj) replicaSetObj (Ok replicaSet)]).
  { subst w2. cbn [trace]. by rewrite Hw1, <- app_assoc. }
  clearbody w2. clear Hw1.
  assert (Hclose : forall (wf : World S) (out : Outcome) evs,
            trace wf = trace w2 ++ evs -> out <> OutOfFuel ->
            conflicts evs = 0%nat ->
            (forall c, (calls c evs <=
                 match c with
                 | CallDeletePVC | CallPoll => 1
                 | CallCreatePVC => 2
                 | CallGetPVC => 120
                 | _ => 0
                 end)%nat) ->
            exists own rest,
              trace wf = trace w ++ own ++ rest /\
              calls CallGetDevPod own = 0%nat /\
              (forall c, calls c own <= replaceBound c)%nat /\
              ((conflicts own = 0%nat /\ rest = [] /\ out <> OutOfFuel) \/
               (conflicts own = 1%nat /\ passInvariant fuel out rest))).
  { intros wf out evs Htr Hout Hcf Hevs.
    exists (scaled ++ [EvCreate (Namespace replicaSetObj) replicaSetObj
                         (Ok replicaSet)] ++ evs), [].
    rewrite app_nil_r, Htr, Hw2, <- !app_assoc. split; [reflexivity|].
    split_and!.
    - count_calls. specialize (Hsc CallGetDevPod).
      specialize (Hevs CallGetDevPod). cbn in *. lia.
    - intros c. specialize (Hsc c). specialize (Hevs c).
      destruct c; count_calls; cbn in *; lia.
    - left. split_and!; try done. count_calls. cbn. lia. }
  clear Hw2.
  destruct (EachDevContainer _ _ _); run.
  2:{ apply (Hclose _ _ []); try done; [by rewrite app_nil_r|].
      intros []; cbn; lia. }
  destruct (createPVC_run replicaSet devPod)
    as [(e0 & He0 & Hfail)|(claim & _ & _ & Hcl)].
  { rewrite Hfail. run. rewrite He0. run.
    apply (Hclose _ _ []); try done; [by rewrite app_nil_r|].
    intros []; cbn; lia. }
  destruct (Hcl w2) as (Htr3 & _). cbn zeta in Htr3.
  destruct (createPVC replicaSet devPod w2) as [[e1|] w3]; cbn [fst snd] in *;
    run.
  2:{ eapply Hclose; try done. intros []; count_calls; cbn; lia. }
  destruct (IsAlreadyExists e1); run.
  2:{ eapply Hclose; try done. intros []; count_calls; cbn; lia. }
  destruct (PersistentVolumeClaims_Delete _ _ _) as [da c4]. run.
  unfold Poll. change (Z.to_nat (Minute * 2 / Second)) with 120%nat. run.
  match goal with |- context [pollLoop 120 ?cond ?w'] =>
    pose proof (pollLoop_lookups 120 (Namespace replicaSet) (Name replicaSet) w')
      as Hp;
    cbn zeta in Hp;
    change (pollLoop 120 _ w') with (pollLoop 120 cond w') in Hp;
    destruct Hp as (answers & Htr5 & _ & Hlen & _) end.
  run.
  destruct (pollLoop _ _ _) as [[perr|] w5]; cbn [fst snd] in *; run.
  { eapply Hclose; [by rewrite Htr5, Htr3, <- !app_assoc|done| |].
    - count_calls. cbn. lia.
    - intros []; count_calls; cbn; lia. }
  destruct (Hcl w5) as (Htr6 & _). cbn zeta in Htr6.
  destruct (createPVC replicaSet devPod w5) as [[e6|] w6]; cbn [fst snd] in *;
    run;
    (eapply Hclose; [by rewrite Htr6, Htr5, Htr3, <- !app_assoc|done| |];
     [count_calls; cbn; lia|intros []; count_calls; cbn; lia]).
Qed.

(** So does the second half of [ReplacePod], within [recreateBound]. *)
Lemma ReplacePodRecreate_calls (fuel : nat) (self : DevPod -> Comp S Outcome)
    (devPod : DevPod) (devPodCache : DevPodCache) (w : World S) :
  obeys fuel self ->
  let r := ReplacePodRecreate self devPod devPodCache w in
  exists own rest,
    trace r.2 = trace w ++ own ++ rest /\
    calls CallGetDevPod own = 0%nat /\
    (forall c, calls c own <= recreateBound c)%nat /\
    ((conflicts own = 0%nat /\ rest = [] /\ r.1 <> OutOfFuel) \/
     (conflicts own = 1%nat /\ passInvariant fuel r.1 rest)).
Proof.
  intros Hself. cbn zeta. unfold ReplacePodRecreate. run.
  destruct (findTargetBySelector _ _) as [[[target|]|e] c1]; run.
  2,3: eexists [_], []; (split; [done|]);
       (split_and!; [done|intros []; count_calls; cbn; lia|by left]).
  unfold SetDevPod, Save. run.
  destruct (RemoteCache_Save _ _) as [[e|] c2]; run.
  { rewrite <- !app_assoc. eexists [_; _; _], []. split; [done|].
    split_and!; [done|intros []; count_calls; cbn; lia|by left]. }
  match goal with |- context [replace self ?n target devPod ?w'] =>
    pose proof (replace_calls fuel self n target devPod w' Hself) as Hr;
    cbn zeta in Hr;
    destruct Hr as (own & rest & Htr & Hget & Hown & Hend);
    destruct (replace self n target devPod w') as [out w3] end.
  cbn [fst snd trace] in *. rewrite <- !app_assoc in Htr. cbn [app] in Htr.
  assert (Hfin : exists own' rest',
            trace w3 = trace w ++ own' ++ rest' /\
            calls CallGetDevPod own' = 0%nat /\
            (forall c, calls c own' <= recreateBound c)%nat /\
            ((conflicts own' = 0%nat /\ rest' = [] /\ out <> OutOfFuel) \/
             (conflicts own' = 1%nat /\ passInvariant fuel out rest'))).
  { rewrite Htr. eexists (_ :: _ :: _ :: own), rest. split; [reflexivity|].
    split_and!.
    - count_calls; lia.
    - intros c. specialize (Hown c). destruct c; count_calls; cbn in *; lia.
    - destruct Hend as [(Hc & -> & Hout)|(Hc & Hinv)]; [left|right];
        split_and!; try done; count_calls; cbn; lia. }
  by destruct out as [[err|]|]; run.
Qed.

(** One pass of [ReplacePod] keeps the invariant of the passes. *)
Lemma ReplacePodBody_obeys (fuel : nat) (self : DevPod -> Comp S Outcome) :
  obeys fuel self -> obeys (Datatypes.S fuel) (ReplacePodBody self).
Proof.
  intros Hself devPod w. unfold ReplacePodBody, GetDevPod. run. cbn zeta.
  (* whatever came before in this pass, the second half completes it *)
  assert (Hrest : forall cache (w' : World S) entry found pre,
            trace w' = trace w ++ EvGetDevPod (dp_Name devPod) entry found :: pre ->
            conflicts pre = 0%nat ->
            (forall c, calls c pre <=
               match c with
               | CallGet | CallFindTargetByKindName | CallDelete => 1
               | _ => 0
               end)%nat ->
            exists evs,
              trace (ReplacePodRecreate self devPod cache w').2 = trace w ++ evs /\
              passInvariant (Datatypes.S fuel)
                (ReplacePodRecreate self devPod cache w').1 evs).
  { intros cache w' entry found pre Hw' Hcf Hpre.
    destruct (ReplacePodRecreate_calls fuel self devPod cache w' Hself)
      as (own & rest & Htr & Hget & Hown & Hend). cbn zeta in *.
    exists (EvGetDevPod (dp_Name devPod) entry found :: (pre ++ own) ++ rest).
    rewrite Htr, Hw', <- !app_assoc. split; [done|].
    assert (Hbody : onePass (pre ++ own)).
    { split.
      - specialize (Hpre CallGetDevPod). count_calls. cbn in *. lia.
      - intros c Hc. specialize (Hown c). specialize (Hpre c). count_calls.
        destruct c; cbn in *; try lia. done. }
    assert (Hg : calls CallGetDevPod pre = 0%nat).
    { specialize (Hpre CallGetDevPod). cbn in Hpre. lia. }
    destruct Hend as [(Hc & -> & Hout)|(Hc & Hpasses & Hle & Hoof)].
    - destruct (ReplacePodRecreate _ _ _ _).1 as [err|]; [|done].
      rewrite app_nil_r. split_and!; [|by count_calls; lia|done].
      apply passes_last; [done|]. count_calls. lia.
    - split_and!.
      + rewrite (app_assoc pre own rest).
        apply passes_retry; [done| |done]. count_calls. lia.
      + count_calls. lia.
      + intros Hout. specialize (Hoof Hout). count_calls. lia. }
  (* a pass that returns before the second half *)
  assert (Hret : forall (err : option error) entry found pre,
            conflicts pre = 0%nat ->
            (forall c, calls c pre <=
               match c with CallGetDevPod => 0 | _ => 1 end)%nat ->
            passInvariant (Datatypes.S fuel) (Returned err)
              (EvGetDevPod (dp_Name devPod) entry found :: pre)).
  { intros err entry found pre Hcf Hpre.
    pose proof (Hpre CallGetDevPod) as Hg. cbn in Hg.
    split_and!; [|by count_calls; lia|done].
    apply passes_last; [|done]. split; [lia|].
    intros c _. specialize (Hpre c). destruct c; cbn in *; lia. }
  destruct (remoteCache w !! dp_Name devPod) as [entry|]; cbn [fst snd negb].
  2:{ cbn [dpc_ReplicaSet zeroDevPodCache].
      rewrite (bool_decide_eq_false_2 ("" ≠ "")) by (intros Hx; by apply Hx).
      eapply Hrest; [done|done|]. intros []; count_calls; cbn; lia. }
  destruct (bool_decide (dpc_ReplicaSet entry ≠ "")); run.
  2:{ eapply Hrest; [done|done|]. intros []; count_calls; cbn; lia. }
  destruct (ReplicaSets_Get _ _ _) as [[replicaSet|e] c1]; run.
  2:{ destruct (IsNotFound e); cbn [negb].
      - eapply Hrest; [cbn [trace]; by rewrite <- app_assoc|done|].
        intros []; count_calls; cbn; lia.
      - run. rewrite <- app_assoc. eexists. split; [done|].
        apply Hret; [done|]. intros []; count_calls; cbn; lia. }
  match goal with |- context [updateNeeded replicaSet devPod ?w'] =>
    pose proof (updateNeeded_calls replicaSet devPod w') as Hu;
    cbn zeta in Hu; destruct Hu as (evs & Htr & Hcf & Hbound & Hpatch);
    destruct (updateNeeded replicaSet devPod w') as [[recreateNeeded err] w2] end.
  cbn [fst snd trace] in *. rewrite <- !app_assoc in Htr. cbn [app] in Htr.
  destruct err as [err|]; run.
  { rewrite Htr. eexists. split; [done|]. apply Hret.
    - count_calls; cbn; lia.
    - intros c. specialize (Hbound c). destruct c; count_calls; cbn in *; lia. }
  destruct recreateNeeded; cbn [negb]; run.
  - specialize (Hpatch eq_refl).
    eapply Hrest; [exact Htr| |].
    + count_calls; cbn; lia.
    + intros c. specialize (Hbound c).
      destruct c; count_calls; cbn in *; lia.
  - rewrite Htr. eexists. split; [done|]. apply Hret.
    + count_calls; cbn; lia.
    + intros c. specialize (Hbound c). destruct c; count_calls; cbn in *; lia.
Qed.

Lemma ReplacePod_obeys (fuel : nat) : obeys fuel (ReplacePod fuel).
Proof.
  induction fuel as [|fuel IH].
  - intros devPod w. exists []. cbn. rewrite app_nil_r. split; [done|].
    split_and!; [constructor|done|done].
  - cbn [ReplacePod]. by apply ReplacePodBody_obeys.
Qed.

(** Passes and conflicts, counted: [ReplacePod] is entered once more than
    there were create conflicts, unless the fuel ran out. *)
Lemma passes_count (out : Outcome) (evs : list Event) :
  passes out evs ->
  calls CallGetDevPod evs =
    (conflicts evs + match out with OutOfFuel => 0 | Returned _ => 1 end)%nat.
Proof.
  induction 1 as [|name entry found body err [Hget _] Hcf
                  |name entry found body rest out [Hget _] Hcf _ IH];
    count_calls; lia.
Qed.

(** C3, as the code has it.  The events of a call of [ReplacePod] are a
    sequence of passes ([passes]): each starts at the top of [ReplacePod],
    and a pass is followed by another one exactly when its creation of the
    replacement was answered with already-exists, however often that
    happens; so [ReplacePod] is entered once more than there were create
    conflicts.  Within a pass every call is made at most once and the
    claim creation at most twice; only the termination poll repeats its
    claim lookup, and no bound is stated for that.  The model returns
    unless the cluster answered with as many conflicts as it was given
    fuel. *)
Theorem ReplacePod_retries_per_conflict (fuel : nat) (devPod : DevPod)
    (w : World S) :
  let r := ReplacePod fuel devPod w in
  exists evs,
    trace r.2 = trace w ++ evs /\
    passes r.1 evs /\
    calls CallGetDevPod evs =
      (conflicts evs + match r.1 with OutOfFuel => 0 | Returned _ => 1 end)%nat /\
    (calls CallGetDevPod evs <= fuel)%nat /\
    (r.1 = OutOfFuel -> conflicts evs = fuel).
Proof.
  cbn zeta. destruct (ReplacePod_obeys fuel devPod w)
    as (evs & Htr & Hpasses & Hle & Hoof).
  exists evs. split_and!; try done. by apply passes_count.
Qed.

(** *** Occurrences of calls *)

Lemma calls_none (c : Call) (evs : list Event) :
  calls c evs = 0%nat <-> Forall (fun ev => callOf ev <> c) evs.
Proof.
  induction evs as [|ev evs IH]; [by split; [constructor|]|].
  rewrite calls_cons, Forall_cons, <- IH.
  destruct (decide (callOf ev = c)); [split; [lia|tauto]|].
  split; [by cbn|]. by intros [_ ->].
Qed.


(** Which replica set [ReplacePod] fetches when the cache names a
    replacement: the one called like the cache entry, [dpc_Name], in the
    cached namespace.  The replacement name [dpc_ReplicaSet] is only
    tested for being empty. *)
Lemma ReplacePod_fetch (fuel : nat) (devPod : DevPod) (w : World S)
    (entry : DevPodCache) :
  remoteCache w !! dp_Name devPod = Some entry ->
  dpc_ReplicaSet entry <> "" ->
  exists answer rest,
    trace (ReplacePod (Datatypes.S fuel) devPod w).2 =
      trace w ++
      EvGetDevPod (dp_Name devPod) entry true ::
      EvGet (dpc_Namespace entry) (dpc_Name entry) answer :: rest.
Proof.
  intros Hentry Hrs. pose proof (ReplacePod_obeys fuel) as Hself.
  cbn [ReplacePod]. generalize dependent (ReplacePod fuel). intros self Hself.
  unfold ReplacePodBody, GetDevPod. run. cbn zeta.
  rewrite Hentry. cbn [fst snd negb]. rewrite (bool_decide_eq_true_2 _ Hrs). run.
  assert (Hrest : forall cache (w' : World S) pre,
            trace w' = trace w ++ pre ->
            exists evs,
              trace (ReplacePodRecreate self devPod cache w').2 =
                trace w ++ pre ++ evs).
  { intros cache w' pre Hw'.
    destruct (ReplacePodRecreate_calls fuel self devPod cache w' Hself)
      as (own & rest & Htr & _). cbn zeta in Htr.
    exists (own ++ rest). by rewrite Htr, Hw', <- app_assoc. }
  destruct (ReplicaSets_Get _ _ _) as [[replicaSet|e] c1]; run.
  2:{ destruct (IsNotFound e); cbn [negb]; run.
      - match goal with |- context [ReplacePodRecreate self devPod ?cache ?w'] =>
          destruct (Hrest cache w'
            [EvGetDevPod (dp_Name devPod) entry true;
             EvGet (dpc_Namespace entry) (dpc_Name entry) (Err e)])
            as [evs Hevs]; [cbn [trace]; by rewrite <- app_assoc|] end.
        rewrite Hevs. by eexists _, _.
      - rewrite <- app_assoc. by eexists _, _. }
  match goal with |- context [updateNeeded replicaSet devPod ?w'] =>
    pose proof (updateNeeded_calls replicaSet devPod w') as Hu;
    cbn zeta in Hu; destruct Hu as (evs & Htr & _);
    destruct (updateNeeded replicaSet devPod w') as [[recreateNeeded err] w2] end.
  cbn [fst snd trace] in *. rewrite <- !app_assoc in Htr. cbn [app] in Htr.
  destruct err as [err|]; run; [rewrite Htr; by eexists _, _|].
  destruct recreateNeeded; cbn [negb]; run; [|rewrite Htr; by eexists _, _].
  match goal with |- context [ReplacePodRecreate self devPod ?cache w2] =>
    destruct (Hrest cache w2 _ Htr) as [evs' Hevs] end.
  rewrite Hevs. cbn [app]. by eexists _, _.
Qed.

End Passes.

(** * Further properties of replace.go *)

Section Further.
Context `{K8sTypes} `{!Collaborators} {S : Type} `{!Cluster S}.

(** X1.  [scaleDownTarget] leaves everything but the replica count and the
    replicas annotation alone: the object keeps its dynamic type, kind,
    name, namespace, UID and pod template, and every annotation under
    another key; an object of another type is not touched at all.  Neither
    the remote cache nor the log changes. *)
Theorem scaleDownTarget_frame (obj : Object) (w : World S) :
  let r := scaleDownTarget obj w in
  remoteCache r.2 = remoteCache w /\ logs r.2 = logs w /\
  resourceOf r.1.1 = resourceOf obj /\
  match appsObject obj, appsObject r.1.1 with
  | Some t, Some t' =>
      Kind t' = Kind t /\ Name t' = Name t /\ Namespace t' = Namespace t /\
      UID t' = UID t /\ Template t' = Template t /\
      forall k, k <> ReplicasAnnotation ->
        mapIndex (Annotations t') k = mapIndex (Annotations t) k
  | None, None => r.1.1 = obj
  | _, _ => False
  end.
Proof.
  cbn zeta.
  assert (Hcase : forall res inj (t : AppsObject),
    (forall t0, appsObject (inj t0) = Some t0) ->
    (forall t0, resourceOf (inj t0) = Some res) ->
    let r := scaleDownCase res inj (inj t) t w in
    remoteCache r.2 = remoteCache w /\ logs r.2 = logs w /\
    resourceOf r.1.1 = Some res /\
    exists t', appsObject r.1.1 = Some t' /\
      Kind t' = Kind t /\ Name t' = Name t /\ Namespace t' = Namespace t /\
      UID t' = UID t /\ Template t' = Template t /\
      forall k, k <> ReplicasAnnotation ->
        mapIndex (Annotations t') k = mapIndex (Annotations t) k).
  { intros res inj t Happs Hres. cbn zeta. unfold scaleDownCase.
    assert (Hnil : forall k,
      mapIndex (Annotations match Annotations t with
                            | Some _ => t
                            | None => withAnnotations t (Some ∅)
                            end) k = mapIndex (Annotations t) k).
    { intros k. destruct t as [? ? ? ? [?|] ? ?]; [done|]. cbn.
      by rewrite lookup_empty. }
    assert (Hset : forall k, k <> ReplicasAnnotation ->
      forall v,
      mapIndex (Annotations (withReplicas (setAnnotation
        match Annotations t with
        | Some _ => t
        | None => withAnnotations t (Some ∅)
        end ReplicasAnnotation v) (Some 0))) k = mapIndex (Annotations t) k).
    { intros k Hk v. rewrite <- Hnil.
      destruct t as [? ? ? ? [?|] ? ?]; cbn; by rewrite lookup_insert_ne. }
    destruct (decide _); run.
    - split_and!; try done. eexists. split; [apply Happs|].
      split_and!; try done; try (by (destruct t as [? ? ? ? [?|] ? ?]; cbn)).
    - destruct (mergePatchData _ _); run;
        [destruct (Apps_Patch _ _ _ _ _ _) as [[e|] c]; run|];
        (split_and!; try done); (eexists; split; [apply Happs|]);
        (split_and!; try (by (destruct t as [? ? ? ? [?|] ? ?]; cbn)));
        intros k Hk; by apply Hset. }
  destruct obj as [t|t|t|k n]; cbn [scaleDownTarget].
  - destruct (Hcase ReplicaSets ObjReplicaSet t) as (? & ? & Hr & t' & Ht' & ?);
      [done|done|]. cbn zeta in *. rewrite Ht', Hr. by split_and!.
  - destruct (Hcase Deployments ObjDeployment t) as (? & ? & Hr & t' & Ht' & ?);
      [done|done|]. cbn zeta in *. rewrite Ht', Hr. by split_and!.
  - destruct (Hcase StatefulSets ObjStatefulSet t) as (? & ? & Hr & t' & Ht' & ?);
      [done|done|]. cbn zeta in *. rewrite Ht', Hr. by split_and!.
  - by run.
Qed.

(** A supported target at zero replicas: [scaleDownTarget] returns nil and
    leaves the world as it is. *)
Lemma scaleDownTarget_zero (obj : Object) (t : AppsObject) (w : World S) :
  appsObject obj = Some t -> default 1 (Replicas t) = 0 ->
  (scaleDownTarget obj w).2 = w /\ (scaleDownTarget obj w).1.2 = None.
Proof.
  intros Ht Hzero.
  destruct obj as [t0|t0|t0|k n]; cbn in Ht; simplify_eq;
    cbn [scaleDownTarget]; unfold scaleDownCase;
    destruct t as [? ? ? ? [?|] [r|] ?]; cbn in *; simplify_eq;
    by run.
Qed.

(** X2.  When the annotated target resolves but the desired replacement
    cannot be built, or the dev pod cannot be hashed, [updateNeeded]
    returns that error (the hash error wrapped with "hash config") with
    recreateNeeded false, and has called nothing but the target lookup.
    The build error comes first. *)
Theorem updateNeeded_build_errors (replicaSet : ReplicaSet) (devPod : DevPod)
    (w : World S) (target : Object) (c : S) :
  let kind := mapIndex (Annotations replicaSet) TargetKindAnnotation in
  let name := mapIndex (Annotations replicaSet) TargetNameAnnotation in
  let ns := Namespace replicaSet in
  kind <> "" -> name <> "" ->
  findTargetByKindName kind ns name (cluster w) = (Ok target, c) ->
  let w1 := afterCall w c (EvFindTargetByKindName kind ns name (Ok target)) in
  let r := updateNeeded replicaSet devPod w in
  (forall e, buildReplicaSet (Name replicaSet) target devPod = Err e ->
     r = ((false, Some e), w1)) /\
  (forall newReplicaSet e,
     buildReplicaSet (Name replicaSet) target devPod = Ok newReplicaSet ->
     hashConfig devPod = Err e ->
     r = ((false, Some (Wrap e "hash config")), w1)).
Proof.
  cbn zeta. intros Hk Hn Hfind. unfold updateNeeded.
  rewrite managed_guard by done. run. rewrite Hfind. run.
  split.
  - intros e ->. by run.
  - intros new e -> ->. by run.
Qed.

(** X3.  An update decision with nothing to do changes nothing.  When the
    annotated target of the replacement resolves, the desired template and
    hash equal the live ones and the target is already at zero replicas,
    [updateNeeded] returns [(false, nil)] having made the target lookup and
    no other call (no patch, no delete), and it logs nothing: the world
    afterwards differs from the one before by that lookup only. *)
Theorem updateNeeded_nothing_to_do (replicaSet : ReplicaSet) (devPod : DevPod)
    (w : World S) (target : Object) (t : AppsObject) (c : S)
    (newReplicaSet : ReplicaSet) (configHash : string) :
  let kind := mapIndex (Annotations replicaSet) TargetKindAnnotation in
  let name := mapIndex (Annotations replicaSet) TargetNameAnnotation in
  let ns := Namespace replicaSet in
  kind <> "" -> name <> "" ->
  findTargetByKindName kind ns name (cluster w) = (Ok target, c) ->
  buildReplicaSet (Name replicaSet) target devPod = Ok newReplicaSet ->
  hashConfig devPod = Ok configHash ->
  SemanticDeepEqual (Template newReplicaSet) (Template replicaSet) = true ->
  configHash = mapIndex (Annotations replicaSet) DevPodConfigHashAnnotation ->
  appsObject target = Some t -> default 1 (Replicas t) = 0 ->
  updateNeeded replicaSet devPod w =
    ((false, None),
     afterCall w c (EvFindTargetByKindName kind ns name (Ok target))).
Proof.
  cbn zeta. intros Hk Hn Hfind Hbuild Hhash Heq Hh Ht Hzero.
  unfold updateNeeded. rewrite managed_guard by done.
  run. rewrite Hfind. run. rewrite Hbuild, Hhash, Heq.
  rewrite bool_decide_eq_true_2 by done. cbn [andb]. run.
  match goal with |- context [scaleDownTarget target ?w'] =>
    destruct (scaleDownTarget_zero target t w' Ht Hzero) as [Hw Herr];
    destruct (scaleDownTarget target w') as [[obj err] w2] end.
  cbn [fst snd] in *. subst. by run.
Qed.

(** The loop that copies the access modes keeps them, in order. *)
Lemma accessModes_copy (modes : list string) :
  foldl (fun accessModes accessMode => accessModes ++ [accessMode]) [] modes
  = modes.
Proof.
  assert (Hgen : forall acc,
    foldl (fun (accessModes : list string) accessMode =>
             accessModes ++ [accessMode]) acc modes = acc ++ modes).
  { induction modes as [|m modes IH]; intros acc; cbn.
    - by rewrite app_nil_r.
    - rewrite IH, <- app_assoc. done. }
  apply Hgen.
Qed.

(** X4.  A size in the persistence options that does not parse makes
    [createPVC] fail before any call: it returns the parse error, named
    with the size, and the world is as it was. *)
Theorem createPVC_bad_size (replicaSet : ReplicaSet) (devPod : DevPod)
    (w : World S) (o : PersistenceOptions) (e : error) :
  dp_PersistenceOptions devPod = Some o ->
  po_Size o <> "" ->
  ParseQuantity (po_Size o) = Err e ->
  createPVC replicaSet devPod w =
    (Some (Errorf "error parsing persistent volume size %s: %v"
             [po_Size o; errorString e]), w).
Proof.
  intros Ho Hsize Hparse. unfold createPVC. rewrite Ho.
  rewrite (bool_decide_eq_true_2 _ Hsize), Hparse. by run.
Qed.

(** X5.  With persistence options whose size is empty or parses,
    [createPVC] sends one create call in the namespace of the replica set;
    each field of the claim follows its own option and falls back to its
    default when that option is empty: the size (10Gi), the storage class
    (none), the access modes (ReadWriteOnce when the slice is nil,
    otherwise the given modes in their order, even if there are none) and
    the name (the name of the replica set). *)
Theorem createPVC_options (replicaSet : ReplicaSet) (devPod : DevPod)
    (w : World S) (o : PersistenceOptions) (size : Quantity) :
  dp_PersistenceOptions devPod = Some o ->
  (if bool_decide (po_Size o = "") then Ok (MustParse "10Gi")
   else ParseQuantity (po_Size o)) = Ok size ->
  exists claim answer,
    trace (createPVC replicaSet devPod w).2 =
      trace w ++ [EvCreatePVC (Namespace replicaSet) claim answer] /\
    pvc_Namespace claim = Namespace replicaSet /\
    pvc_Requests claim = {[ "storage" := size ]} /\
    pvc_StorageClassName claim =
      (if bool_decide (po_StorageClassName o = "") then None
       else Some (po_StorageClassName o)) /\
    pvc_AccessModes claim = default ["ReadWriteOnce"] (po_AccessModes o) /\
    pvc_Name claim =
      (if bool_decide (po_Name o = "") then Name replicaSet else po_Name o).
Proof.
  intros Ho Hsize. unfold createPVC. rewrite Ho.
  assert (Hs : (if bool_decide (po_Size o ≠ "")
                then match ParseQuantity (po_Size o) with
                     | Ok q => Ok q
                     | Err err =>
                         Err (Errorf "error parsing persistent volume size %s: %v"
                                [po_Size o; errorString err])
                     end
                else Ok (MustParse "10Gi")) = Ok size).
  { destruct (decide (po_Size o = "")) as [He|Hne].
    - rewrite (bool_decide_eq_true_2 _ He) in Hsize.
      rewrite bool_decide_eq_false_2 by (intros Hx; by apply Hx). done.
    - rewrite (bool_decide_eq_false_2 _ Hne) in Hsize.
      rewrite (bool_decide_eq_true_2 _ Hne), Hsize. done. }
  rewrite Hs. run.
  assert (Hfields :
    (if bool_decide (po_StorageClassName o ≠ "")
     then Some (po_StorageClassName o) else None) =
    (if bool_decide (po_StorageClassName o = "") then None
     else Some (po_StorageClassName o)) /\
    (if bool_decide (po_Name o ≠ "") then po_Name o else Name replicaSet) =
    (if bool_decide (po_Name o = "") then Name replicaSet else po_Name o) /\
    match o with
    | {| po_AccessModes := Some modes |} =>
        foldl (fun accessModes accessMode => accessModes ++ [accessMode]) [] modes
    | {| po_AccessModes := None |} => ["ReadWriteOnce"]
    end = default ["ReadWriteOnce"] (po_AccessModes o)).
  { split_and!.
    - destruct (decide (po_StorageClassName o = "")) as [He|Hne].
      + rewrite (bool_decide_eq_true_2 _ He).
        by rewrite bool_decide_eq_false_2 by (intros Hx; by apply Hx).
      + by rewrite (bool_decide_eq_false_2 _ Hne), (bool_decide_eq_true_2 _ Hne).
    - destruct (decide (po_Name o = "")) as [He|Hne].
      + rewrite (bool_decide_eq_true_2 _ He).
        by rewrite bool_decide_eq_false_2 by (intros Hx; by apply Hx).
      + by rewrite (bool_decide_eq_false_2 _ Hne), (bool_decide_eq_true_2 _ Hne).
    - destruct o as [? ? [modes|] ?]; cbn; [apply accessModes_copy|done]. }
  destruct Hfields as (Hsc & Hname & Hmodes).
  destruct (PersistentVolumeClaims_Create _ _ _) as [[e|] c]; run;
    [destruct (IsAlreadyExists e && _); run|];
    eexists _, _; (split; [reflexivity|]); cbn; by split_and!.
Qed.

(** X6.  An error of the create call is never swallowed by [createPVC],
    except the already-exists error when an explicit claim name was given:
    any other error, and already-exists for the derived name, is returned
    unchanged. *)
Theorem createPVC_returns_error (replicaSet : ReplicaSet) (devPod : DevPod)
    (w : World S) (evs : list Event) (ns : string)
    (claim : PersistentVolumeClaim) (e : error) :
  trace (createPVC replicaSet devPod w).2 = trace w ++ evs ->
  EvCreatePVC ns claim (Some e) ∈ evs ->
  IsAlreadyExists e = false \/ explicitClaimName devPod = "" ->
  (createPVC replicaSet devPod w).1 = Some e.
Proof.
  intros Htr Hin Hcase.
  destruct (createPVC_run replicaSet devPod)
    as [(e0 & _ & He)|(cl & _ & _ & Hcl)].
  { rewrite He in Htr. apply no_new_events in Htr. subst evs.
    by apply elem_of_nil in Hin. }
  destruct (Hcl w) as (Htr' & _ & _ & Hres).
  rewrite Htr' in Htr. apply app_inv_head in Htr. subst evs.
  apply list_elem_of_singleton in Hin. injection Hin as _ _ Ha.
  rewrite <- Ha in Hres. rewrite Hres.
  destruct Hcase as [Hae|Hname].
  - by rewrite Hae.
  - rewrite Hname.
    rewrite (bool_decide_eq_false_2 ("" ≠ "")) by (intros Hx; by apply Hx).
    by rewrite andb_false_r.
Qed.

(** [createPVC] and [updateNeeded] leave the remote cache alone. *)
Lemma createPVC_cache (replicaSet : ReplicaSet) (devPod : DevPod)
    (w : World S) :
  remoteCache (createPVC replicaSet devPod w).2 = remoteCache w.
Proof.
  destruct (createPVC_run replicaSet devPod)
    as [(e0 & _ & He)|(cl & _ & _ & Hcl)].
  - by rewrite He.
  - by destruct (Hcl w) as (_ & _ & Hc & _).
Qed.

Lemma updateNeeded_cache (replicaSet : ReplicaSet) (devPod : DevPod)
    (w : World S) :
  remoteCache (updateNeeded replicaSet devPod w).2 = remoteCache w.
Proof.
  unfold updateNeeded.
  destruct (_ || _ || _); run.
  { by rewrite deleteReplicaSet_run. }
  destruct (findTargetByKindName _ _ _ _) as [[target|e] c]; run.
  2:{ destruct (IsNotFound e); run; [by rewrite deleteReplicaSet_run|done]. }
  destruct (buildReplicaSet _ _ _); run; [|done].
  destruct (hashConfig _); run; [|done].
  destruct (_ && _); run.
  - match goal with |- context [scaleDownTarget target ?w'] =>
      pose proof (scaleDownTarget_calls target w') as (Hc & _) end.
    cbn zeta in Hc.
    by destruct (scaleDownTarget target _) as [[obj [err|]] w']; run.
  - destruct (mergePatchData _ _); run; [|done].
    by destruct (Apps_Patch _ _ _ _ _ _).
Qed.

(** The claim [createPVC] asks for lies in the namespace of the replica
    set. *)
Lemma createPVC_claim_namespace (replicaSet : ReplicaSet) (devPod : DevPod)
    (w : World S) (ns : string) (claim : PersistentVolumeClaim)
    (answer : option error) :
  trace (createPVC replicaSet devPod w).2 =
    trace w ++ [EvCreatePVC ns claim answer] ->
  pvc_Namespace claim = Namespace replicaSet.
Proof.
  unfold createPVC.
  destruct (match dp_PersistenceOptions devPod with Some _ => _ | None => _ end)
    as [size|err]; run.
  - destruct (PersistentVolumeClaims_Create _ _ _) as [[e|] c]; run;
      [destruct (IsAlreadyExists e && _); run|];
      intros Heq; apply app_inv_head in Heq; by injection Heq as _ <- _.
  - intros Heq. by apply no_new_events in Heq.
Qed.

(** *** Claim calls *)

Lemma claimsOwned_app (devPod : DevPod) (owner : option ReplicaSet)
    (l1 l2 : list Event) :
  claimsOwned devPod owner (l1 ++ l2) <->
  claimsOwned devPod owner l1 /\
  claimsOwned devPod (foldl ownerStep owner l1) l2.
Proof.
  revert owner. induction l1 as [|ev l1 IH]; intros owner; cbn.
  - tauto.
  - rewrite IH. tauto.
Qed.

Lemma claimsOwned_weaken (devPod : DevPod) (owner : option ReplicaSet)
    (evs : list Event) :
  claimsOwned devPod None evs -> claimsOwned devPod owner evs.
Proof.
  assert (Hgen : forall o1 o2,
    (o1 = None \/ o1 = o2) ->
    claimsOwned devPod o1 evs -> claimsOwned devPod o2 evs).
  { induction evs as [|ev evs IH]; intros o1 o2 Ho; [done|].
    cbn. intros [Hev Hrest]. split.
    - destruct Ho as [->| ->]; [|done].
      destruct ev; cbn in *; try done; by destruct Hev as (? & ? & _).
    - apply (IH (ownerStep o1 ev)); [|done].
      destruct Ho as [->| ->]; [|by right].
      destruct ev as [| | | |? ? [?|?]| | | | | | | |]; cbn; auto. }
  apply Hgen. by left.
Qed.

(** Events that are no claim calls are in order. *)
Lemma claimsOwned_others (devPod : DevPod) (owner : option ReplicaSet)
    (evs : list Event) :
  calls CallCreatePVC evs = 0%nat -> calls CallDeletePVC evs = 0%nat ->
  calls CallGetPVC evs = 0%nat -> calls CallPoll evs = 0%nat ->
  claimsOwned devPod owner evs.
Proof.
  rewrite !calls_none. revert owner.
  induction evs as [|ev evs IH]; intros owner H1 H2 H3 H4; [done|].
  apply Forall_cons in H1 as [? ?]. apply Forall_cons in H2 as [? ?].
  apply Forall_cons in H3 as [? ?]. apply Forall_cons in H4 as [? ?].
  cbn. split; [by destruct ev|by apply IH].
Qed.

(** So are the lookups of the claim named like the replica set. *)
Lemma claimsOwned_lookups (devPod : DevPod) (replicaSet : ReplicaSet)
    (answers : list (option error)) (evs : list Event) :
  hasPersistPath devPod ->
  claimsOwned devPod (Some replicaSet) evs ->
  claimsOwned devPod (Some replicaSet)
    (map (EvGetPVC (Namespace replicaSet) (Name replicaSet)) answers ++ evs).
Proof.
  intros Hp Hevs. induction answers as [|a answers IH]; [done|].
  cbn. split; [by exists replicaSet|done].
Qed.

Lemma ownPass_refl (devPod : DevPod) (w w' : World S) :
  trace w' = trace w -> ownPass devPod w w'.
Proof. intros Htr. exists []. by rewrite app_nil_r. Qed.

Lemma ownPass_trans (devPod : DevPod) (w1 w2 w3 : World S) :
  ownPass devPod w1 w2 -> ownPass devPod w2 w3 -> ownPass devPod w1 w3.
Proof.
  intros (l1 & Htr1 & Hl1) (l2 & Htr2 & Hl2). exists (l1 ++ l2).
  split; [by rewrite Htr2, Htr1, <- app_assoc|].
  apply claimsOwned_app. split; [done|]. by apply claimsOwned_weaken.
Qed.

(** One more event that is no claim call. *)
Lemma ownPass_event (devPod : DevPod) (w w' : World S) (ev : Event) :
  trace w' = trace w ++ [ev] -> claimOwned devPod None ev ->
  ownPass devPod w w'.
Proof. intros Htr Hev. by exists [ev]. Qed.

(** Events appended to the trace, whatever else has changed. *)
Lemma ownPass_world (devPod : DevPod) (w : World S) (c : S)
    (cache : gmap string DevPodCache) (evs : list Event)
    (lg : list (LogLevel * string * list string)) :
  claimsOwned devPod None evs ->
  ownPass devPod w
    {| cluster := c; remoteCache := cache; trace := trace w ++ evs;
       logs := lg |}.
Proof. intros Hevs. by exists evs. Qed.

Lemma updateNeeded_ownPass (replicaSet : ReplicaSet) (devPod : DevPod)
    (w : World S) :
  ownPass devPod w (updateNeeded replicaSet devPod w).2.
Proof.
  destruct (updateNeeded_calls replicaSet devPod w) as (evs & Htr & _ & Hb & _).
  exists evs. split; [done|].
  apply claimsOwned_others.
  - specialize (Hb CallCreatePVC). cbn in Hb. lia.
  - specialize (Hb CallDeletePVC). cbn in Hb. lia.
  - specialize (Hb CallGetPVC). cbn in Hb. lia.
  - specialize (Hb CallPoll). cbn in Hb. lia.
Qed.

Lemma scaleDownTarget_ownPass (devPod : DevPod) (obj : Object) (w : World S) :
  ownPass devPod w (scaleDownTarget obj w).2.
Proof.
  destruct (scaleDownTarget_calls obj w)
    as (_ & _ & [->|(res & ns & name & bytes & a & Htr)]).
  - by apply ownPass_refl.
  - by eapply ownPass_event.
Qed.

(** The two ways [replace] ends.  Either it returns by itself, with the
    same result whatever [ReplacePod] it was given; or the creation of the
    replica set was answered with already-exists and it ends as the
    [ReplacePod] it was given does, started in the world it has reached.
    Either way it has left the remote cache alone up to there, and its
    claim calls were in order. *)
Lemma replace_shape (replicaSetName : string) (target : Object)
    (devPod : DevPod) (w : World S) :
  (exists err w', remoteCache w' = remoteCache w /\ ownPass devPod w w' /\
     forall self, replace self replicaSetName target devPod w =
                  (Returned err, w')) \/
  (exists w' ns obj c e, remoteCache w' = remoteCache w /\
     ownPass devPod w w' /\
     (ReplicaSets_Create ns obj c).1 = Err e /\
     IsAlreadyExists e = true /\
     forall self, replace self replicaSetName target devPod w =
                  self devPod w').
Proof.
  unfold replace.
  destruct (buildReplicaSet _ _ _) as [replicaSetObj|e]; run.
  2:{ left. (eexists _, _; split_and!; [| |done]); [done|by apply ownPass_refl]. }
  pose proof (scaleDownTarget_calls target w) as (Hc1 & _).
  pose proof (scaleDownTarget_ownPass devPod target w) as Ho1.
  cbn zeta in Hc1.
  destruct (scaleDownTarget target w) as [[obj [err|]] w1]; cbn [fst snd] in *;
    run.
  { left. (eexists _, _; split_and!; [| |done]); done. }
  destruct (ReplicaSets_Create _ _ _) as [[replicaSet|e] c2] eqn:Hcreate; run.
  2:{ assert (Ho2 : forall lg, ownPass devPod w
        {| cluster := c2; remoteCache := remoteCache w1;
           trace := trace w1 ++
             [EvCreate (Namespace replicaSetObj) replicaSetObj (Err e)];
           logs := lg |}).
      { intros lg. eapply ownPass_trans; [exact Ho1|].
        by eapply ownPass_event. }
      destruct (IsAlreadyExists e) eqn:Hae; run.
      - right. eexists _, _, _, _, e.
        split_and!; [| | |done|reflexivity];
          [cbn; congruence|apply Ho2|by rewrite Hcreate].
      - left. (eexists _, _; split_and!; [| |done]);
          [cbn; congruence|apply Ho2]. }
  match goal with |- context [@Build_World ?h ?s ?c ?rc ?tr ?lg] =>
    set (w2 := @Build_World h s c rc tr lg) end.
  assert (Hc2 : remoteCache w2 = remoteCache w) by (by subst w2).
  assert (Hclose : forall (wf : World S) evs,
    trace wf = trace w2 ++ evs ->
    claimsOwned devPod (Some replicaSet) evs -> ownPass devPod w wf).
  { intros wf evs Htr Hevs. destruct Ho1 as (own1 & Htr1 & Hown1).
    exists (own1 ++
            EvCreate (Namespace replicaSetObj) replicaSetObj (Ok replicaSet)
            :: evs).
    split; [subst w2; cbn [trace] in Htr; by rewrite Htr, Htr1, <- !app_assoc|].
    apply claimsOwned_app. split; [done|]. by cbn. }
  clearbody w2. clear Ho1 Hc1.
  destruct (EachDevContainer _ _ _) eqn:Hpersist; run.
  2:{ left. (eexists _, _; split_and!; [| |done]); [done|].
      apply (Hclose _ []); [by rewrite app_nil_r|done]. }
  apply eachDevContainer_hasPersistPath in Hpersist as [|Hpersist]; [done|].
  fold (hasPersistPath devPod) in Hpersist.
  destruct (createPVC_run replicaSet devPod)
    as [(e0 & He0 & Hfail)|(claim & Howner & _ & Hcl)].
  { rewrite Hfail. run. rewrite He0. run. left.
    (eexists _, _; split_and!; [| |done]); [done|].
    apply (Hclose _ []); [by rewrite app_nil_r|done]. }
  assert (Hclaim : forall a,
    claimOwned devPod (Some replicaSet)
      (EvCreatePVC (Namespace replicaSet) claim a)).
  { intros a. exists replicaSet. split_and!; try done.
    destruct (Hcl w2) as (Htr & _).
    by apply (createPVC_claim_namespace _ _ _ _ _ _ Htr). }
  pose proof (createPVC_cache replicaSet devPod) as Hpvc.
  destruct (Hcl w2) as (Htr3 & _). cbn zeta in Htr3.
  pose proof (Hpvc w2) as Hc3.
  destruct (createPVC replicaSet devPod w2) as [[e1|] w3];
    cbn [fst snd] in *; run.
  2:{ left. (eexists _, _; split_and!; [| |done]); [congruence|].
      eapply Hclose; [exact Htr3|]. cbn [claimsOwned]. split; [apply Hclaim|done]. }
  destruct (IsAlreadyExists e1); run.
  2:{ left. (eexists _, _; split_and!; [| |done]); [congruence|].
      eapply Hclose; [exact Htr3|]. cbn [claimsOwned]. split; [apply Hclaim|done]. }
  destruct (PersistentVolumeClaims_Delete _ _ _) as [da c4]. run.
  unfold Poll. change (Z.to_nat (Minute * 2 / Second)) with 120%nat. run.
  match goal with |- context [pollLoop 120 ?cond ?w'] =>
    pose proof (pollLoop_lookups 120 (Namespace replicaSet) (Name replicaSet) w')
      as Hp;
    cbn zeta in Hp;
    change (pollLoop 120 _ w') with (pollLoop 120 cond w') in Hp;
    destruct Hp as (answers & Htr5 & Hc5 & _) end.
  run.
  assert (Hevs : forall tail,
    claimsOwned devPod (Some replicaSet) tail ->
    claimsOwned devPod (Some replicaSet)
      (EvCreatePVC (Namespace replicaSet) claim
         (PersistentVolumeClaims_Create (Namespace replicaSet) claim
            (cluster w2)).1
       :: EvDeletePVC (Namespace replicaSet) (Name replicaSet) da
       :: EvPoll Second (Minute * 2)
       :: map (EvGetPVC (Namespace replicaSet) (Name replicaSet)) answers
          ++ tail)).
  { intros tail Htail. cbn [claimsOwned ownerStep].
    split_and!; [apply Hclaim|by exists replicaSet|done|].
    by apply claimsOwned_lookups. }
  destruct (pollLoop _ _ _) as [[perr|] w5]; cbn [fst snd] in *; run;
    rewrite Htr3, <- !app_assoc in Htr5; cbn [app] in Htr5.
  { left. (eexists _, _; split_and!; [| |done]); [congruence|].
    eapply Hclose; [|apply (Hevs [])]; [|done].
    by rewrite Htr5, app_nil_r. }
  destruct (Hcl w5) as (Htr6 & _). cbn zeta in Htr6.
  pose proof (Hpvc w5) as Hc6.
  assert (Ho6 : ownPass devPod w (createPVC replicaSet devPod w5).2).
  { rewrite Htr5, <- !app_assoc in Htr6. cbn [app] in Htr6.
    eapply Hclose; [exact Htr6|]. apply Hevs.
    cbn [claimsOwned]. split; [apply Hclaim|done]. }
  destruct (createPVC replicaSet devPod w5) as [[e6|] w6]; cbn [fst snd] in *;
    run; left; (eexists _, _; split_and!; [| |done]);
    solve [congruence|done].
Qed.

(** Setting the entry [ReplacePod] writes does not change the key and the
    namespace it works with. *)
Lemma cacheKey_insert (devPod : DevPod) (cache : gmap string DevPodCache)
    (target : Object) :
  let K := cacheKey devPod cache in
  let N := cacheNamespace devPod cache in
  let cache' := <[K := entryFor K N target]> cache in
  cacheKey devPod cache' = K /\ cacheNamespace devPod cache' = N.
Proof.
  cbn zeta. unfold cacheKey, cacheNamespace.
  destruct (cache !! dp_Name devPod) as [entry|] eqn:Hentry.
  - destruct (decide (dpc_Name entry = dp_Name devPod)) as [Heq|Hne].
    + rewrite Heq, lookup_insert_eq. by cbn.
    + rewrite lookup_insert_ne by done. by rewrite Hentry.
  - by rewrite lookup_insert_eq.
Qed.

(** The two ways the second half of [ReplacePod] ends: by itself, having
    set at most the entry called like [devPodCache]; or, after a create
    conflict, as the [ReplacePod] it was given does, started with that
    entry set. *)
Lemma ReplacePodRecreate_shape (devPod : DevPod) (devPodCache : DevPodCache)
    (w : World S) :
  let K := dpc_Name devPodCache in
  let N := dpc_Namespace devPodCache in
  (exists err w',
     (remoteCache w' = remoteCache w \/
      exists target, remoteCache w' = <[K := entryFor K N target]> (remoteCache w)) /\
     ownPass devPod w w' /\
     forall self, ReplacePodRecreate self devPod devPodCache w =
                  (Returned err, w')) \/
  (exists w' target args ns obj c e,
     remoteCache w' = <[K := entryFor K N target]> (remoteCache w) /\
     ownPass devPod w w' /\
     (ReplicaSets_Create ns obj c).1 = Err e /\
     IsAlreadyExists e = true /\
     forall self, ReplacePodRecreate self devPod devPodCache w =
                  replaced args (self devPod w')).
Proof.
  cbn zeta. unfold ReplacePodRecreate. run.
  destruct (findTargetBySelector _ _) as [[[target|]|e] c1]; run.
  2,3: left; (eexists _, _; split_and!; [| |done]);
       [by left|by eapply ownPass_event].
  unfold SetDevPod, Save. run.
  destruct (RemoteCache_Save _ _) as [[e|] c2]; run.
  { left. (eexists _, _; split_and!; [| |done]); [right; by exists target|].
    cbn [trace]. rewrite <- !app_assoc. by apply ownPass_world. }
  match goal with |- context [replace _ ?n target devPod ?w3] =>
    assert (Ho3 : ownPass devPod w w3)
      by (cbn [trace]; rewrite <- !app_assoc; by apply ownPass_world);
    destruct (replace_shape n target devPod w3)
      as [(err & w' & Hc & Ho & Hrep)
         |(w' & ns & obj & c & e & Hc & Ho & Hcr & Hae & Hrep)]
  end; cbn [remoteCache] in Hc;
    pose proof (ownPass_trans _ _ _ _ Ho3 Ho) as Hown; clear Ho3 Ho.
  - left. destruct err as [err|].
    + eexists _, w'. split_and!; [right; by exists target|done|].
      intros self. rewrite Hrep. by run.
    + (eexists _, _; split_and!;
         [| |intros self; rewrite Hrep; run; reflexivity]);
        [right; by exists target|].
      destruct Hown as (own & Htr & Hown). by exists own.
  - right. exists w', target, [objectKind target; objectName target], ns, obj, c, e.
    split_and!; try done.
    intros self. rewrite Hrep. unfold replaced, logged.
    by destruct (self devPod w') as [[[err|]|] wf].
Qed.

(** The same for one pass of [ReplacePod], in terms of the key and the
    namespace that the cache gives for the dev pod. *)
Lemma ReplacePodBody_shape (devPod : DevPod) (w : World S) :
  let K := cacheKey devPod (remoteCache w) in
  let N := cacheNamespace devPod (remoteCache w) in
  (exists err w',
     (remoteCache w' = remoteCache w \/
      exists target, remoteCache w' = <[K := entryFor K N target]> (remoteCache w)) /\
     ownPass devPod w w' /\
     forall self, ReplacePodBody self devPod w = (Returned err, w')) \/
  (exists w' target args ns obj c e,
     remoteCache w' = <[K := entryFor K N target]> (remoteCache w) /\
     ownPass devPod w w' /\
     (ReplicaSets_Create ns obj c).1 = Err e /\
     IsAlreadyExists e = true /\
     forall self, ReplacePodBody self devPod w =
                  replaced args (self devPod w')).
Proof.
  cbn zeta. unfold ReplacePodBody, GetDevPod, cacheKey, cacheNamespace. run.
  assert (Hrec : forall (cache : DevPodCache) (w1 : World S),
    remoteCache w1 = remoteCache w -> ownPass devPod w w1 ->
    (exists err w',
       (remoteCache w' = remoteCache w \/
        exists target, remoteCache w' =
          <[dpc_Name cache := entryFor (dpc_Name cache) (dpc_Namespace cache) target]>
            (remoteCache w)) /\
       ownPass devPod w w' /\
       forall self, ReplacePodRecreate self devPod cache w1 = (Returned err, w')) \/
    (exists w' target args ns obj c e,
       remoteCache w' =
         <[dpc_Name cache := entryFor (dpc_Name cache) (dpc_Namespace cache) target]>
           (remoteCache w) /\
       ownPass devPod w w' /\
       (ReplicaSets_Create ns obj c).1 = Err e /\
       IsAlreadyExists e = true /\
       forall self, ReplacePodRecreate self devPod cache w1 =
                    replaced args (self devPod w'))).
  { intros cache w1 Hw1 Ho1.
    destruct (ReplacePodRecreate_shape devPod cache w1)
      as [(err & w' & Hc & Ho & Hrep)
         |(w' & target & args & ns & obj & c & e & Hc & Ho & Hcr & Hae & Hrep)];
      cbn zeta in *; rewrite Hw1 in Hc;
      pose proof (ownPass_trans _ _ _ _ Ho1 Ho) as Hown.
    - left. by exists err, w'.
    - right. by exists w', target, args, ns, obj, c, e. }
  destruct (remoteCache w !! dp_Name devPod) as [entry|] eqn:Hentry;
    cbn [negb fst snd dpc_ReplicaSet dpc_Name dpc_Namespace zeroDevPodCache].
  2:{ rewrite (bool_decide_eq_false_2 ("" ≠ "")) by (intros Hx; by apply Hx).
      match goal with |- context [ReplacePodRecreate _ devPod ?cache ?w1] =>
        apply (Hrec cache w1); [done|by apply ownPass_world] end. }
  specialize (Hrec entry).
  destruct (bool_decide (dpc_ReplicaSet entry ≠ "")); run.
  2:{ match goal with |- context [ReplacePodRecreate _ _ _ ?w1] =>
        apply (Hrec w1); [done|by apply ownPass_world] end. }
  destruct (ReplicaSets_Get _ _ _) as [[replicaSet|e] c]; run.
  2:{ destruct (IsNotFound e); cbn [negb]; run.
      { match goal with |- context [ReplacePodRecreate _ _ _ ?w1] =>
          apply (Hrec w1); [done|] end.
        cbn [trace]. rewrite <- !app_assoc. by apply ownPass_world. }
      left. (eexists _, _; split_and!; [| |done]); [by left|].
      cbn [trace]. rewrite <- !app_assoc. by apply ownPass_world. }
  match goal with |- context [updateNeeded replicaSet devPod ?w1] =>
    assert (Ho1 : ownPass devPod w w1)
      by (cbn [trace]; rewrite <- !app_assoc; by apply ownPass_world);
    pose proof (updateNeeded_cache replicaSet devPod w1) as Hu;
    pose proof (updateNeeded_ownPass replicaSet devPod w1) as Ho2;
    destruct (updateNeeded replicaSet devPod w1) as [[recreateNeeded [err|]] w2]
  end; cbn [fst snd remoteCache] in Hu, Ho2;
    pose proof (ownPass_trans _ _ _ _ Ho1 Ho2) as Hown; clear Ho1 Ho2; run.
  { left. (eexists _, _; split_and!; [| |done]); [by left|done]. }
  destruct recreateNeeded; cbn [negb]; run.
  - by apply Hrec.
  - left. (eexists _, _; split_and!; [| |done]); [by left|].
    destruct Hown as (own & Htr & Hown). by exists own.
Qed.

(** *** The cache is saved before the cluster is changed, in every pass *)







(** X7.  [ReplacePod] writes one cache entry at most: the one under the
    [Name] of the entry it found for the dev pod, or under the dev pod
    name when it found none.  Every other entry of the remote cache is
    after the call, retries included, what it was before; and the one
    entry is either untouched or describes a target it resolved, with the
    name and the namespace the call started from (for a dev pod without
    entry: its own namespace, or the namespace of the client when that is
    empty). *)
Theorem ReplacePod_cache_frame (fuel : nat) (devPod : DevPod) (w : World S) :
  let K := cacheKey devPod (remoteCache w) in
  let N := cacheNamespace devPod (remoteCache w) in
  let after := remoteCache (ReplacePod fuel devPod w).2 in
  (forall k, k <> K -> after !! k = remoteCache w !! k) /\
  (after !! K = remoteCache w !! K \/
   exists target, after !! K = Some (entryFor K N target)).
Proof.
  cbn zeta. revert w. induction fuel as [|fuel IH]; intros w.
  { cbn. split; [done|by left]. }
  cbn [ReplacePod].
  destruct (ReplacePodBody_shape devPod w)
    as [(err & w' & Hc & _ & Hrep)
       |(w' & target & args & ns & obj & c & e & Hc & _ & _ & _ & Hrep)];
    cbn zeta in *; rewrite Hrep.
  - destruct Hc as [Hc|[target Hc]]; cbn [snd]; rewrite Hc.
    + split; [done|by left].
    + split; [intros k Hk; by rewrite lookup_insert_ne|].
      right. exists target. by rewrite lookup_insert_eq.
  - destruct (cacheKey_insert devPod (remoteCache w) target) as [HK HN].
    cbn zeta in HK, HN. rewrite <- Hc in HK, HN.
    specialize (IH w'). rewrite HK, HN in IH. destruct IH as [IHk IHK].
    assert (Hsame : remoteCache (replaced args (ReplacePod fuel devPod w')).2
                    = remoteCache (ReplacePod fuel devPod w').2).
    { unfold replaced. by destruct (ReplacePod fuel devPod w') as [[[?|]|] ?]. }
    rewrite Hsame. split.
    + intros k Hk. rewrite (IHk k Hk), Hc. by rewrite lookup_insert_ne.
    + right. destruct IHK as [IHK|[target' IHK]].
      * exists target. by rewrite IHK, Hc, lookup_insert_eq.
      * by exists target'.
Qed.

(** X9.  [ReplacePod] calls itself only on a create conflict: on a cluster
    that never answers the creation of a replica set with already-exists,
    every call returns in its first pass, with a result that does not
    depend on the bound. *)
Theorem ReplacePod_single_pass (devPod : DevPod) (w : World S) :
  neverConflicts ->
  exists err w', forall fuel,
    ReplacePod (Datatypes.S fuel) devPod w = (Returned err, w').
Proof.
  intros Hcalm.
  destruct (ReplacePodBody_shape devPod w)
    as [(err & w' & _ & _ & Hrep)
       |(w' & target & args & ns & obj & c & e & _ & _ & Hcr & Hae & _)].
  - exists err, w'. intros fuel. apply Hrep.
  - rewrite (Hcalm _ _ _ _ Hcr) in Hae. done.
Qed.

(** X10.  Without a target there is no replacement.  For a dev pod whose
    cache entry names no replacement (or that has no entry), when the
    Target Resolver fails or matches nothing, [ReplacePod] returns the
    resolver's error as it is, or "couldn't find a matching deployment,
    statefulset or replica set"; it has looked up the cache and the target
    and done nothing else, and the remote cache is as it was. *)
Theorem ReplacePod_no_target (fuel : nat) (devPod : DevPod) (w : World S)
    (found : result (option Object)) (c : S) :
  from_option dpc_ReplicaSet "" (remoteCache w !! dp_Name devPod) = "" ->
  findTargetBySelector devPod (cluster w) = (found, c) ->
  (forall target, found <> Ok (Some target)) ->
  let r := ReplacePod (Datatypes.S fuel) devPod w in
  r.1 = Returned (Some
          match found with
          | Err e => e
          | Ok _ =>
              Errorf "couldn't find a matching deployment, statefulset or replica set" []
          end) /\
  remoteCache r.2 = remoteCache w /\ logs r.2 = logs w /\ cluster r.2 = c /\
  exists entry ok,
    trace r.2 = trace w ++ [EvGetDevPod (dp_Name devPod) entry ok;
                            EvFindTargetBySelector devPod found].
Proof.
  cbn zeta. intros Hnone Hfind Hmiss.
  cbn [ReplacePod]. unfold ReplacePodBody, GetDevPod. run.
  destruct (remoteCache w !! dp_Name devPod) as [entry|]; cbn in Hnone;
    cbn [negb fst snd dpc_ReplicaSet zeroDevPodCache]; rewrite ?Hnone;
    rewrite (bool_decide_eq_false_2 ("" ≠ "")) by (intros Hx; by apply Hx);
    unfold ReplacePodRecreate; run; rewrite Hfind; run;
    (destruct found as [[target|]|e]; [by destruct (Hmiss target)| |]); run;
    rewrite <- app_assoc; split_and!; try done; by eexists _, _.
Qed.

(** X11.  A failed lookup of the replacement, other than not-found, ends
    [ReplacePod] at once: the error comes back wrapped with "find devspace
    replica set", and nothing has been deleted, patched, created or
    written to the cache. *)
Theorem ReplacePod_fetch_error (fuel : nat) (devPod : DevPod) (w : World S)
    (entry : DevPodCache) (e : error) (c : S) :
  remoteCache w !! dp_Name devPod = Some entry ->
  dpc_ReplicaSet entry <> "" ->
  ReplicaSets_Get (dpc_Namespace entry) (dpc_Name entry) (cluster w) =
    (Err e, c) ->
  IsNotFound e = false ->
  ReplacePod (Datatypes.S fuel) devPod w =
    (Returned (Some (Wrap e "find devspace replica set")),
     {| cluster := c; remoteCache := remoteCache w;
        trace := trace w ++
          [EvGetDevPod (dp_Name devPod) entry true;
           EvGet (dpc_Namespace entry) (dpc_Name entry) (Err e)];
        logs := logs w ++
          [(LogDebug, "Try to find replaced replica set...", [])] |}).
Proof.
  intros Hentry Hrs Hget Hnf.
  cbn [ReplacePod]. unfold ReplacePodBody, GetDevPod. run. rewrite Hentry.
  cbn [negb fst snd]. rewrite (bool_decide_eq_true_2 _ Hrs). run.
  rewrite Hget. run. rewrite Hnf. cbn [negb]. run.
  by rewrite <- !app_assoc.
Qed.

(** X12.  A stale replacement that cannot be deleted is not replaced.  When
    the fetched replica set lacks a target annotation and its deletion
    fails with anything but not-found, [ReplacePod] returns that error
    wrapped with "delete replica set"; it resolves no target and writes
    nothing to the cache. *)
Theorem ReplacePod_stale_delete_error (fuel : nat) (devPod : DevPod)
    (w : World S) (entry : DevPodCache) (replicaSet : ReplicaSet)
    (e : error) (c1 c2 : S) :
  remoteCache w !! dp_Name devPod = Some entry ->
  dpc_ReplicaSet entry <> "" ->
  ReplicaSets_Get (dpc_Namespace entry) (dpc_Name entry) (cluster w) =
    (Ok replicaSet, c1) ->
  mapIndex (Annotations replicaSet) TargetKindAnnotation = "" \/
  mapIndex (Annotations replicaSet) TargetNameAnnotation = "" ->
  ReplicaSets_Delete (Namespace replicaSet) (Name replicaSet) c1 =
    (Some e, c2) ->
  IsNotFound e = false ->
  ReplacePod (Datatypes.S fuel) devPod w =
    (Returned (Some (Wrap e "delete replica set")),
     {| cluster := c2; remoteCache := remoteCache w;
        trace := trace w ++
          [EvGetDevPod (dp_Name devPod) entry true;
           EvGet (dpc_Namespace entry) (dpc_Name entry) (Ok replicaSet);
           EvDelete (Namespace replicaSet) (Name replicaSet) (Some e)];
        logs := logs w ++
          [(LogDebug, "Try to find replaced replica set...", [])] |}).
Proof.
  intros Hentry Hrs Hget Hstale Hdel Hnf.
  cbn [ReplacePod]. unfold ReplacePodBody, GetDevPod. run. rewrite Hentry.
  cbn [negb fst snd]. rewrite (bool_decide_eq_true_2 _ Hrs). run.
  rewrite Hget. run. unfold updateNeeded.
  apply unmanaged_guard in Hstale. rewrite Hstale. run.
  rewrite deleteReplicaSet_run. cbn [cluster]. rewrite Hdel.
  cbn [fst snd]. unfold deleteOutcome. rewrite Hnf. run.
  by rewrite <- !app_assoc.
Qed.

(** X13.  The first replacement of a dev pod, step by step.  For a dev pod
    without cache entry whose target is found with a non-zero replica
    count, when the save, the scale-down patch and the creation of the
    replica set succeed and no dev container persists paths, [ReplacePod]
    returns nil after exactly these calls, in this order: cache lookup,
    target lookup, cache entry set, cache saved, target patched down,
    replica set created.  The replica set is the one built for the name
    [<target>-devspace], and the cache ends up with the new entry. *)
Theorem ReplacePod_first_replacement (fuel : nat) (devPod : DevPod)
    (w : World S) (res : Resource) (t : AppsObject) (c1 c2 c3 c4 : S)
    (replicaSetObj replicaSet : ReplicaSet) (bytes : string) :
  remoteCache w !! dp_Name devPod = None ->
  let target := inject res t in
  findTargetBySelector devPod (cluster w) = (Ok (Some target), c1) ->
  let K := dp_Name devPod in
  let N := if bool_decide (dp_Namespace devPod = "") then clientNamespace
           else dp_Namespace devPod in
  let entry := entryFor K N target in
  let cache' := <[K := entry]> (remoteCache w) in
  RemoteCache_Save cache' c1 = (None, c2) ->
  buildReplicaSet (Name t +:+ "-devspace") target devPod = Ok replicaSetObj ->
  let replicas := default 1 (Replicas t) in
  replicas <> 0 ->
  let t' :=
    withReplicas
      (withAnnotations t
         (Some (<[ReplicasAnnotation := Itoa replicas]>
                  (default ∅ (Annotations t)))))
      (Some 0) in
  mergePatchData target (inject res t') = Ok bytes ->
  Apps_Patch res (Namespace t) (Name t) MergePatchType bytes c2 = (None, c3) ->
  ReplicaSets_Create (Namespace replicaSetObj) replicaSetObj c3 =
    (Ok replicaSet, c4) ->
  ~ hasPersistPath devPod ->
  let r := ReplacePod (Datatypes.S fuel) devPod w in
  r.1 = Returned None /\ cluster r.2 = c4 /\ remoteCache r.2 = cache' /\
  trace r.2 = trace w ++
    [EvGetDevPod K zeroDevPodCache false;
     EvFindTargetBySelector devPod (Ok (Some target));
     EvSetDevPod K entry;
     EvSave cache' None;
     EvPatch res (Namespace t) (Name t) MergePatchType bytes None;
     EvCreate (Namespace replicaSetObj) replicaSetObj (Ok replicaSet)].
Proof.
  cbn zeta.
  intros Hmiss Hfind Hsave Hbuild Hrep Hbytes Hpatch Hcreate Hnopersist.
  assert (Hname : objectName (inject res t) = Name t) by (by destruct res).
  cbn [ReplacePod]. unfold ReplacePodBody, GetDevPod. run. rewrite Hmiss.
  cbn [negb fst snd dpc_ReplicaSet dpc_Name dpc_Namespace dpc_TargetKind
       dpc_TargetName zeroDevPodCache].
  rewrite (bool_decide_eq_false_2 ("" ≠ "")) by (intros Hx; by apply Hx).
  unfold ReplacePodRecreate. run. rewrite Hfind. run.
  unfold SetDevPod, Save. run.
  cbn [dpc_ReplicaSet dpc_Name dpc_Namespace dpc_TargetKind dpc_TargetName].
  unfold entryFor in Hsave. rewrite Hsave. run.
  unfold replace. rewrite Hname, Hbuild. run.
  rewrite scaleDownTarget_inject. unfold scaleDownCase.
  assert (Hscaled :
    withReplicas
      (setAnnotation
         match Annotations t with
         | Some _ => t
         | None => withAnnotations t (Some ∅)
         end ReplicasAnnotation
         (Itoa match Replicas match Annotations t with
                              | Some _ => t
                              | None => withAnnotations t (Some ∅)
                              end with
               | Some r => r
               | None => 1
               end)) (Some 0) =
    withReplicas
      (withAnnotations t
         (Some (<[ReplicasAnnotation := Itoa (default 1 (Replicas t))]>
                  (default ∅ (Annotations t)))))
      (Some 0)).
  { by destruct t as [? ? ? ? [?|] [?|] ?]. }
  assert (Hcount :
    match Replicas match Annotations t with
                   | Some _ => t
                   | None => withAnnotations t (Some ∅)
                   end with
    | Some r => r
    | None => 1
    end = default 1 (Replicas t)).
  { by destruct t as [? ? ? ? [?|] [?|] ?]. }
  cbn zeta. rewrite Hscaled. rewrite Hcount.
  destruct (decide (default 1 (Replicas t) = 0)) as [|_]; [done|].
  rewrite Hbytes. run.
  cbn [withReplicas withAnnotations Namespace Name].
  unfold mergePatchType. rewrite Hpatch. run. rewrite Hcreate. run.
  destruct (EachDevContainer _ _ _) eqn:Hpersist.
  { apply eachDevContainer_hasPersistPath in Hpersist as [|Hp]; [done|].
    by destruct Hnopersist. }
  run. rewrite <- !app_assoc. unfold entryFor. rewrite Hname.
  by split_and!.
Qed.

(** [createPVC] by the size it is asked for: a size that does not parse
    ends it before any call; otherwise it makes one create call, for a
    claim of that size in the namespace of the replica set and owned by
    it, and returns what the cluster answers, except that already-exists
    on an explicitly named claim counts as success. *)
Lemma createPVC_sized (replicaSet : ReplicaSet) (devPod : DevPod) :
  match
    match dp_PersistenceOptions devPod with
    | Some o =>
        if bool_decide (po_Size o ≠ "") then
          match ParseQuantity (po_Size o) with
          | Ok q => Ok q
          | Err err =>
              Err (Errorf "error parsing persistent volume size %s: %v"
                          [po_Size o; errorString err])
          end
        else Ok (MustParse "10Gi")
    | None => Ok (MustParse "10Gi")
    end
  with
  | Err e =>
      IsAlreadyExists e = false /\
      forall w : World S, createPVC replicaSet devPod w = (Some e, w)
  | Ok size =>
      exists claim,
        pvc_Namespace claim = Namespace replicaSet /\
        pvc_OwnerReferences claim = [ownerReferenceTo replicaSet] /\
        pvc_Requests claim = {[ "storage" := size ]} /\
        forall w : World S,
          let r := createPVC replicaSet devPod w in
          let a := PersistentVolumeClaims_Create (Namespace replicaSet) claim
                     (cluster w) in
          trace r.2 = trace w ++ [EvCreatePVC (Namespace replicaSet) claim a.1] /\
          r.1 = match a.1 with
                | Some e =>
                    if IsAlreadyExists e
                       && bool_decide (explicitClaimName devPod ≠ "")
                    then None else Some e
                | None => None
                end
  end.
Proof.
  unfold createPVC, explicitClaimName.
  destruct (match dp_PersistenceOptions devPod with Some _ => _ | None => _ end)
    as [size|err] eqn:Hsize; run.
  2:{ split; [|done].
      destruct (dp_PersistenceOptions devPod) as [o|]; [|done].
      destruct (bool_decide _); [|done].
      destruct (ParseQuantity _); by simplify_eq. }
  match goal with
  | |- context [@Build_PersistentVolumeClaim ?h ?a ?b ?c ?d ?e ?f] =>
      exists (@Build_PersistentVolumeClaim h a b c d e f)
  end.
  split_and!; try done.
  intros w. cbn zeta.
  destruct (PersistentVolumeClaims_Create _ _ _) as [[e|] c] eqn:Hc; run;
    [|done].
  destruct (dp_PersistenceOptions devPod) as [o|]; cbn [from_option].
  - destruct (bool_decide (po_Name o ≠ "")); rewrite ?andb_false_r, ?andb_true_r;
      destruct (IsAlreadyExists e) eqn:Hae; run; by split_and!.
  - rewrite (bool_decide_eq_false_2 ("" ≠ "")) by (intros Hx; by apply Hx).
    rewrite andb_false_r. run. by split_and!.
Qed.

(** X14.  The claim of a replacement belongs to the replica set the
    cluster returned.  Let [replace] have created the replica set for a
    dev pod with persisted paths.  If the size in the persistence options
    does not parse, [replace] returns "error parsing persistent volume
    size ..." wrapped with "create persistent volume claim" and calls
    nothing further.  Otherwise its next call creates a claim of that
    size (10Gi when none is given) in the namespace of the created replica
    set and owned by it.  If the cluster answers that call with success,
    or with a conflict on an explicitly named claim, [replace] returns
    nil; if with another error than a conflict, [replace] returns the
    error wrapped; either way nothing follows. *)
Theorem replace_first_claim (self : DevPod -> Comp S Outcome)
    (replicaSetName : string) (target : Object) (devPod : DevPod)
    (w w1 : World S) (replicaSetObj replicaSet : ReplicaSet) (obj' : Object)
    (c2 : S) :
  buildReplicaSet replicaSetName target devPod = Ok replicaSetObj ->
  scaleDownTarget target w = ((obj', None), w1) ->
  ReplicaSets_Create (Namespace replicaSetObj) replicaSetObj (cluster w1) =
    (Ok replicaSet, c2) ->
  hasPersistPath devPod ->
  let w2 :=
    afterCall
      (logged w1 LogDebug "Scaled down %s %s"
         [mapIndex (Annotations replicaSetObj) TargetKindAnnotation;
          mapIndex (Annotations replicaSetObj) TargetNameAnnotation])
      c2 (EvCreate (Namespace replicaSetObj) replicaSetObj (Ok replicaSet)) in
  let r := replace self replicaSetName target devPod w in
  match
    match dp_PersistenceOptions devPod with
    | Some o =>
        if bool_decide (po_Size o ≠ "") then
          match ParseQuantity (po_Size o) with
          | Ok q => Ok q
          | Err err =>
              Err (Errorf "error parsing persistent volume size %s: %v"
                          [po_Size o; errorString err])
          end
        else Ok (MustParse "10Gi")
    | None => Ok (MustParse "10Gi")
    end
  with
  | Err e =>
      r = (Returned (Some (Wrap e "create persistent volume claim")), w2)
  | Ok size =>
      exists claim tail,
        let answer :=
          (PersistentVolumeClaims_Create (Namespace replicaSet) claim c2).1 in
        trace r.2 =
          trace w2 ++ EvCreatePVC (Namespace replicaSet) claim answer :: tail /\
        pvc_Namespace claim = Namespace replicaSet /\
        pvc_OwnerReferences claim = [ownerReferenceTo replicaSet] /\
        pvc_Requests claim = {[ "storage" := size ]} /\
        match answer with
        | None => tail = [] /\ r.1 = Returned None
        | Some e =>
            if IsAlreadyExists e then
              explicitClaimName devPod <> "" -> tail = [] /\ r.1 = Returned None
            else
              tail = [] /\
              r.1 = Returned (Some (Wrap e "create persistent volume claim"))
        end
  end.
Proof.
  intros Hbuild Hscale Hcreate Hpersist w2 r.
  subst r. unfold replace. rewrite Hbuild. run. rewrite Hscale. run.
  rewrite Hcreate. run. unfold EachDevContainer.
  rewrite (proj2 (eachDevContainer_hasPersistPath _ false)) by (by right).
  assert (Hc2 : cluster w2 = c2) by done.
  assert (Hw2 : w2 =
    {| cluster := c2; remoteCache := remoteCache w1;
       trace := trace w1 ++
         [EvCreate (Namespace replicaSetObj) replicaSetObj (Ok replicaSet)];
       logs := logs w1 ++
         [(LogDebug, "Scaled down %s %s",
           [mapIndex (Annotations replicaSetObj) TargetKindAnnotation;
            mapIndex (Annotations replicaSetObj) TargetNameAnnotation])] |})
    by done.
  rewrite <- Hw2. clearbody w2. clear Hw2.
  pose proof (createPVC_sized replicaSet devPod) as Hpvc.
  destruct (match dp_PersistenceOptions devPod with Some _ => _ | None => _ end)
    as [size|e0].
  2:{ destruct Hpvc as [He0 Hfail]. rewrite Hfail. run. rewrite He0. by run. }
  destruct Hpvc as (claim & Hns & Howner & Hreq & Hcl).
  exists claim.
  destruct (Hcl w2) as (Htr & Hres). cbn zeta in *. rewrite Hc2 in Htr, Hres.
  destruct (PersistentVolumeClaims_Create _ _ _) as [answer c3].
  cbn [fst snd] in *.
  destruct (createPVC replicaSet devPod w2) as [res3 w3]. cbn [fst snd] in *.
  subst res3.
  destruct answer as [e|].
  - destruct (IsAlreadyExists e) eqn:Hae; cbn [andb].
    + destruct (decide (explicitClaimName devPod = "")) as [Hnone|Hexplicit].
      * rewrite (bool_decide_eq_false_2 _ (fun Hx => Hx Hnone)). run.
        rewrite Hae. run.
        destruct (PersistentVolumeClaims_Delete _ _ _) as [da c4]. run.
        unfold Poll. change (Z.to_nat (Minute * 2 / Second)) with 120%nat. run.
        match goal with |- context [pollLoop 120 ?cond ?w'] =>
          pose proof (pollLoop_lookups 120 (Namespace replicaSet)
                        (Name replicaSet) w') as Hp;
          cbn zeta in Hp;
          change (pollLoop 120 _ w') with (pollLoop 120 cond w') in Hp;
          destruct Hp as (answers & Htr5 & _) end.
        run.
        destruct (pollLoop _ _ _) as [[perr|] w5]; cbn [fst snd] in *; run.
        { eexists. split_and!; [|done|done|done|by intros Hx].
          rewrite Htr5, Htr, <- !app_assoc. reflexivity. }
        destruct (Hcl w5) as (Htr6 & _). cbn zeta in Htr6.
        eexists. split_and!; [|done|done|done|by intros Hx].
        destruct (createPVC replicaSet devPod w5) as [[e6|] w6];
          cbn [fst snd] in *; run;
          rewrite Htr6, Htr5, Htr, <- !app_assoc; reflexivity.
      * rewrite (bool_decide_eq_true_2 _ Hexplicit). run.
        exists []. by split_and!.
    + run. rewrite Hae. run. exists []. by split_and!.
  - run. exists []. by split_and!.
Qed.

(** X15.  [updateNeeded] asks for a recreate exactly when it has deleted
    the replacement.  When it reports recreateNeeded, its last call was the
    deletion of this replica set, whose outcome is the error it returns,
    and it has sent no patch; when it does not, it has deleted nothing. *)
Theorem updateNeeded_recreate_means_deleted (replicaSet : ReplicaSet)
    (devPod : DevPod) (w : World S) :
  let r := updateNeeded replicaSet devPod w in
  exists evs,
    trace r.2 = trace w ++ evs /\
    if r.1.1 then
      exists pre answer,
        evs = pre ++ [EvDelete (Namespace replicaSet) (Name replicaSet) answer] /\
        r.1.2 = deleteOutcome answer /\
        calls CallDelete pre = 0%nat /\ calls CallPatch pre = 0%nat
    else calls CallDelete evs = 0%nat.
Proof.
  cbn zeta. unfold updateNeeded.
  destruct (_ || _ || _); run.
  { rewrite deleteReplicaSet_run. run. eexists. split; [done|].
    by eexists [], _. }
  destruct (findTargetByKindName _ _ _ _) as [[target|e] c]; run.
  2:{ destruct (IsNotFound e); run.
      - rewrite deleteReplicaSet_run. run. rewrite <- app_assoc.
        eexists. split; [done|]. by eexists [_], _.
      - by eexists. }
  destruct (buildReplicaSet _ _ _); run; [|by eexists].
  destruct (hashConfig _); run; [|by eexists].
  destruct (_ && _); run.
  - match goal with |- context [scaleDownTarget target ?w'] =>
      pose proof (scaleDownTarget_calls target w') as (_ & _ & Hcalls) end.
    cbn zeta in Hcalls.
    destruct (scaleDownTarget target _) as [[obj [err|]] w']; run;
      destruct Hcalls as [->|(res & ns' & n' & bytes & ans & ->)]; run;
      rewrite <- ?app_assoc; by eexists.
  - destruct (mergePatchData _ _); run;
      [destruct (Apps_Patch _ _ _ _ _ _)|]; run;
      rewrite <- ?app_assoc; by eexists.
Qed.

(** X16.  Claims follow their replica set.  In every run of [ReplacePod],
    retries included, a claim is created, deleted or looked up only for a
    dev pod that persists paths, and only after a replica set has been
    created successfully, with no other creation in between: the created
    claim lies in the namespace of that replica set and is owned by it,
    and a deleted or looked-up claim is the one named like it. *)
Theorem ReplacePod_claims_owned (fuel : nat) (devPod : DevPod) (w : World S)
    (evs : list Event) :
  trace (ReplacePod fuel devPod w).2 = trace w ++ evs ->
  claimsOwned devPod None evs.
Proof.
  assert (Hown : forall n w0, ownPass devPod w0 (ReplacePod n devPod w0).2).
  { induction n as [|n IH]; intros w0; [by apply ownPass_refl|].
    cbn [ReplacePod].
    destruct (ReplacePodBody_shape devPod w0)
      as [(err & w' & _ & Ho & Hrep)
         |(w' & target & args & ns & obj & c & e & _ & Ho & _ & _ & Hrep)];
      rewrite Hrep; [done|].
    apply (ownPass_trans _ _ _ _ Ho).
    destruct (IH w') as (own & Htr & Hevs). exists own. split; [|done].
    rewrite <- Htr. unfold replaced.
    by destruct (ReplacePod n devPod w') as [[[?|]|] ?]. }
  intros Htr. destruct (Hown fuel w) as (own & Htr' & Hevs).
  rewrite Htr' in Htr. by apply app_inv_head in Htr as <-.
Qed.

End Further.

(** * The reconciler on the scripted cluster *)

Section Scenarios.
Import Fake.

(** The end-to-end scenario of the spec, first call: the cache entry is
    saved, [api-deploy] is patched (replicas annotation 3, replicas 0) and
    [api-deploy-devspace] is created. *)
Example ReplacePod_first_call :
  let w := world [Finds (Some (ObjDeployment apiDeploy))] ∅ in
  let r := ReplacePod 2 api w in
  r.1 = Returned None /\
  trace r.2 =
    [ EvGetDevPod "api" zeroDevPodCache false;
      EvFindTargetBySelector api (Ok (Some (ObjDeployment apiDeploy)));
      EvSetDevPod "api" apiEntry;
      EvSave {[ "api" := apiEntry ]} None;
      EvPatch Deployments "default" "api-deploy" MergePatchType
        "merge-patch:api-deploy" None;
      EvCreate "default" apiReplacement (Ok apiReplacement) ].
Proof. vm_compute. split; reflexivity. Qed.

(** Scaling [api-deploy] down records its three replicas; scaling the
    result down again changes nothing and calls nothing. *)
Example scaleDownTarget_twice :
  let first := scaleDownTarget (ObjDeployment apiDeploy) (world [] ∅) in
  let second := scaleDownTarget first.1.1 first.2 in
  first.1 = (ObjDeployment apiDeployScaled, None) /\
  trace first.2 =
    [ EvPatch Deployments "default" "api-deploy" MergePatchType
        "merge-patch:api-deploy" None ] /\
  second = (first.1, first.2).
Proof. vm_compute. by split_and!. Qed.

(** The claim handling of [replace] when the left-over claim never goes
    away: 120 lookups, then the timeout error and no second creation. *)
Example replace_pvc_timeout :
  let w := world [Fine; Fine; Fails alreadyExists] ∅ in
  let r := replace (ReplacePod 0) "api-deploy-devspace" (ObjDeployment apiDeploy)
             apiPersist w in
  r.1 = Returned (Some (Wrap ErrWaitTimeout "waiting for pvc to terminate")) /\
  calls CallGetPVC (trace r.2) = 120%nat /\
  calls CallCreatePVC (trace r.2) = 1%nat.
Proof. vm_compute. by split_and!. Qed.

(** C1, at a failing input.  The cache entry of [api] names the replacement
    [api-deploy-devspace], which exists in the cluster.  [ReplacePod]
    fetches the replica set named [api], the dev pod name, instead: the
    fetch answers not-found, the full replacement path runs, and creating
    [api-deploy-devspace] conflicts; the retry fetches [api] again. *)
Lemma ReplacePod_fetches_dev_pod_name :
  let w := world [Fails notFound; Finds (Some (ObjDeployment apiDeployScaled));
                  Fine; Fails alreadyExists; Fails forbidden]
                 {[ "api" := apiEntry ]} in
  let r := ReplacePod 3 api w in
  dpc_ReplicaSet apiEntry = "api-deploy-devspace" /\
  r.1 = Returned (Some (Wrap forbidden "find devspace replica set")) /\
  trace r.2 =
    [ EvGetDevPod "api" apiEntry true;
      EvGet "default" "api" (Err notFound);
      EvFindTargetBySelector api (Ok (Some (ObjDeployment apiDeployScaled)));
      EvSetDevPod "api" apiEntry;
      EvSave {[ "api" := apiEntry ]} None;
      EvCreate "default" apiReplacement (Err alreadyExists);
      EvGetDevPod "api" apiEntry true;
      EvGet "default" "api" (Err forbidden) ].
Proof. vm_compute. by split_and!. Qed.

(** On the cluster where the replacement of [api] already exists, a call
    of [ReplacePod] for [api] uses up any fuel: every pass fetches [api],
    finds nothing, and conflicts on creating [api-deploy-devspace].  The
    recursion of the Go code has no end there. *)
Lemma ReplacePod_retries_forever (fuel : nat) (w : World unit) :
  remoteCache w !! "api" = Some apiEntry ->
  (@ReplacePod _ _ _ (occupied apiDeployScaled apiReplacement) fuel api w).1
    = OutOfFuel.
Proof.
  revert w. induction fuel as [|fuel IH]; intros w Hentry; [done|].
  cbn [ReplacePod]. unfold ReplacePodBody, GetDevPod. run. cbn zeta.
  change (dp_Name api) with "api". rewrite Hentry. cbn [fst snd negb].
  rewrite bool_decide_eq_true_2 by done. run.
  cbn [ReplicaSets_Get occupied dpc_Name apiEntry].
  change (occupiedGet apiReplacement "api") with (@Err ReplicaSet notFound).
  run. cbn [IsNotFound ReasonForError notFound negb].
  unfold ReplacePodRecreate, SetDevPod, Save. run.
  cbn [findTargetBySelector occupied RemoteCache_Save]. run.
  unfold replace.
  change (buildReplicaSet _ _ _) with (Ok apiReplacement). run.
  change (scaleDownTarget (ObjDeployment apiDeployScaled))
    with (mret (M:=Comp unit) (ObjDeployment apiDeployScaled, @None error)).
  run. cbn [ReplicaSets_Create occupied].
  rewrite bool_decide_eq_true_2 by done. run.
  cbn [IsAlreadyExists ReasonForError alreadyExists]. run.
  match goal with |- context [ReplacePod fuel api ?w'] =>
    specialize (IH w'); destruct (ReplacePod fuel api w') as [out w''] end.
  cbn [fst snd remoteCache] in *. rewrite IH; [done|].
  change (dpc_Name _) with "api". by rewrite lookup_insert_eq.
Qed.

(** C3 fails as stated: with three conflicts in a row [ReplacePod] runs
    four times from the top, and returns nil. *)
Lemma ReplacePod_retries_three_times :
  let pass := [Fails notFound; Finds (Some (ObjDeployment apiDeployScaled));
               Fine; Fails alreadyExists] in
  let w := world (pass ++ pass ++ pass ++
                  [Fails notFound; Finds (Some (ObjDeployment apiDeployScaled))])
                 {[ "api" := apiEntry ]} in
  let r := ReplacePod 5 api w in
  r.1 = Returned None /\
  calls CallGetDevPod (trace r.2) = 4%nat /\
  calls CallCreate (trace r.2) = 4%nat /\
  conflicts (trace r.2) = 3%nat.
Proof. vm_compute. by split_and!. Qed.


(** C6 fails as stated: with the explicit claim name [shared-data] the
    claim [createPVC] creates still carries the owner reference. *)
Lemma createPVC_explicit_name_keeps_owner :
  let r := createPVC apiReplacement apiShared (world [] ∅) in
  explicitClaimName apiShared = "shared-data" /\
  trace r.2 = [EvCreatePVC "default" sharedClaim None] /\
  pvc_OwnerReferences sharedClaim = [ownerReferenceTo apiReplacement] /\
  pvc_OwnerReferences sharedClaim <> [].
Proof. vm_compute. by split_and!. Qed.

(** The hypotheses of C2 hold for the unchanged dev pod (no patch to the
    replacement, the scale-down patch to the target) and for the changed
    one (one patch to the replacement, towards the object with the new
    image as template and the new hash). *)
Lemma updateNeeded_patches_in_place_witness :
  (let w := world [Finds (Some (ObjDeployment apiDeploy))] ∅ in
   let r := updateNeeded apiReplacement api w in
   r.1 = (false, None) /\
   trace r.2 =
     [ EvFindTargetByKindName "Deployment" "default" "api-deploy"
         (Ok (ObjDeployment apiDeploy));
       EvPatch Deployments "default" "api-deploy" MergePatchType
         "merge-patch:api-deploy" None ]) /\
  (let w := world [Finds (Some (ObjDeployment apiDeployScaled))] ∅ in
   let r := updateNeeded apiReplacement apiChanged w in
   r.1 = (false, None) /\
   exists modified : ReplicaSet,
     Template modified = "devimage2" /\
     mapIndex (Annotations modified) DevPodConfigHashAnnotation = "h-devimage2" /\
     exists bytes,
       mergePatchData (ObjReplicaSet apiReplacement) (ObjReplicaSet modified)
         = Ok bytes /\
       trace r.2 =
         [ EvFindTargetByKindName "Deployment" "default" "api-deploy"
             (Ok (ObjDeployment apiDeployScaled));
           EvPatch ReplicaSets "default" "api-deploy-devspace" MergePatchType
             bytes None ]).
Proof.
  split; cbn zeta.
  - destruct (updateNeeded_patches_in_place apiReplacement api
      (world [Finds (Some (ObjDeployment apiDeploy))] ∅)
      (ObjDeployment apiDeploy) [] apiReplacement "h-devimage")
      as (Hfalse & _ & Hsame & _);
      [by vm_compute|by vm_compute|reflexivity|reflexivity|reflexivity|].
    destruct (Hsame eq_refl) as [Herr Htr]. split.
    + by apply injective_projections.
    + rewrite Htr. reflexivity.
  - edestruct (updateNeeded_patches_in_place apiReplacement apiChanged
      (world [Finds (Some (ObjDeployment apiDeployScaled))] ∅)
      (ObjDeployment apiDeployScaled) [])
      as (Hfalse & _ & _ & Hdiff);
      [by vm_compute|by vm_compute|reflexivity|reflexivity|reflexivity|].
    destruct (Hdiff eq_refl)
      as (modified & Htpl & Hhash & _ & _ & _ & _ & _ & _ & Hpatch).
    cbn [mergePatchData collaborators] in Hpatch.
    destruct Hpatch as (Herr & _ & Htr). split.
    + by apply injective_projections.
    + exists modified. split_and!; [exact Htpl|exact Hhash|].
      eexists. split; [reflexivity|]. rewrite Htr. reflexivity.
Defined.


(** The hypotheses of the amended C6 hold for [apiShared] when the claim
    [shared-data] exists already: [createPVC] returns nil. *)
Lemma createPVC_owner_reference_witness :
  (createPVC apiReplacement apiShared (world [Fails alreadyExists] ∅)).1 = None /\
  pvc_OwnerReferences sharedClaim = [ownerReferenceTo apiReplacement].
Proof.
  destruct (createPVC_owner_reference apiReplacement apiShared
    (world [Fails alreadyExists] ∅)
    [EvCreatePVC "default" sharedClaim (Some alreadyExists)]
    "default" sharedClaim (Some alreadyExists)) as [Howner Hadopt].
  - by vm_compute.
  - apply list_elem_of_singleton. reflexivity.
  - split; [|exact Howner].
    destruct Hadopt as [_ Hnil]; [by vm_compute|].
    by apply (Hnil alreadyExists).
Defined.

(** The hypothesis of C7 holds for [apiPersist]. *)
Lemma createPVC_defaults_witness :
  exists claim answer,
    trace (createPVC apiReplacement apiPersist (world [] ∅)).2 =
      [EvCreatePVC "default" claim answer] /\
    pvc_Requests claim = {[ "storage" := "10Gi" ]} /\
    pvc_AccessModes claim = ["ReadWriteOnce"] /\
    pvc_StorageClassName claim = None /\
    pvc_Name claim = "api-deploy-devspace".
Proof.
  exact (createPVC_defaults apiReplacement apiPersist (world [] ∅) eq_refl).
Defined.

(** The hypotheses of C8 hold for [apiPersist] when a claim of the
    replacement's name is left over and disappears at the second lookup. *)
Lemma replace_pvc_conflict_witness :
  let w := world [Fine; Fine; Fails alreadyExists; Fine; Fine; Fails notFound;
                  Fine] ∅ in
  let r := replace (ReplacePod 0) "api-deploy-devspace" (ObjDeployment apiDeploy)
             apiPersist w in
  explicitClaimName apiPersist = "" /\
  exists answers tail,
    trace r.2 =
      [ EvPatch Deployments "default" "api-deploy" MergePatchType
          "merge-patch:api-deploy" None;
        EvCreate "default" apiReplacement (Ok apiReplacement);
        EvCreatePVC "default" defaultClaim (Some alreadyExists);
        EvDeletePVC "default" "api-deploy-devspace" None;
        EvPoll 1000000000 120000000000 ] ++
      map (EvGetPVC "default" "api-deploy-devspace") answers ++ tail /\
    (length answers <= 120)%nat.
Proof.
  cbn zeta.
  edestruct (replace_pvc_conflict (ReplacePod 0) "api-deploy-devspace"
    (ObjDeployment apiDeploy) apiPersist
    (world [Fine; Fine; Fails alreadyExists; Fine; Fine; Fails notFound; Fine] ∅))
    as (Hname & answers & tail & Htr & Hlen & _).
  - reflexivity.
  - vm_compute. reflexivity.
  - vm_compute. reflexivity.
  - by repeat constructor.
  - vm_compute. reflexivity.
  - reflexivity.
  - split; [exact Hname|]. exists answers, tail. split; [|exact Hlen].
    rewrite Htr. reflexivity.
Defined.


(** The hypotheses of C10 hold for the unchanged dev pod when the
    scale-down patch of [api-deploy] is forbidden.  (The fetch by the dev
    pod name [api] is scripted to return the replacement.) *)
Lemma updateNeeded_swallows_scale_down_error_witness :
  let w := world [Gives apiReplacement; Finds (Some (ObjDeployment apiDeploy));
                  Fails forbidden] {[ "api" := apiEntry ]} in
  let r := ReplacePod 1 api w in
  r.1 = Returned None /\
  logs r.2 =
    [ (LogDebug, "Try to find replaced replica set...", []);
      (LogWarn, "Error scaling down target: %v", ["forbidden"]);
      (LogDebug, "No changes required in replaced replica set %s",
       ["api-deploy-devspace"]) ].
Proof.
  cbn zeta.
  edestruct (updateNeeded_swallows_scale_down_error 0 api
    (world [Gives apiReplacement; Finds (Some (ObjDeployment apiDeploy));
            Fails forbidden] {[ "api" := apiEntry ]})
    apiEntry apiReplacement (ObjDeployment apiDeploy)) as (_ & _ & Hr).
  - by vm_compute.
  - by vm_compute.
  - reflexivity.
  - by vm_compute.
  - by vm_compute.
  - reflexivity.
  - reflexivity.
  - reflexivity.
  - reflexivity.
  - reflexivity.
  - split; [exact Hr|]. by vm_compute.
Defined.

End Scenarios.
(** * Further scenarios *)

Section FurtherScenarios.
Import Fake.

(** The hypotheses of X2 hold when the annotated target of the replacement
    is of a kind the builder refuses. *)
Lemma updateNeeded_build_errors_witness :
  (updateNeeded apiReplacement api (world [Finds (Some apiJob)] ∅)).1 =
    (false, Some (Errorf "unrecognized object" [])).
Proof.
  destruct (updateNeeded_build_errors apiReplacement api
    (world [Finds (Some apiJob)] ∅) apiJob []) as [Hbuild _].
  - by vm_compute.
  - by vm_compute.
  - reflexivity.
  - by rewrite (Hbuild (Errorf "unrecognized object" []) eq_refl).
Defined.

(** The hypotheses of X3 hold for the unchanged dev pod [api] once
    [api-deploy] is scaled down: nothing is patched. *)
Lemma updateNeeded_nothing_to_do_witness :
  let w := world [Finds (Some (ObjDeployment apiDeployScaled))] ∅ in
  let r := updateNeeded apiReplacement api w in
  r.1 = (false, None) /\
  trace r.2 =
    [ EvFindTargetByKindName "Deployment" "default" "api-deploy"
        (Ok (ObjDeployment apiDeployScaled)) ] /\
  logs r.2 = [].
Proof.
  cbn zeta.
  rewrite (updateNeeded_nothing_to_do apiReplacement api
    (world [Finds (Some (ObjDeployment apiDeployScaled))] ∅)
    (ObjDeployment apiDeployScaled) apiDeployScaled [] apiReplacement
    "h-devimage").
  - done.
  - by vm_compute.
  - by vm_compute.
  - reflexivity.
  - reflexivity.
  - reflexivity.
  - reflexivity.
  - reflexivity.
  - reflexivity.
  - reflexivity.
Defined.

(** The hypotheses of X4 hold for the size "lots". *)
Lemma createPVC_bad_size_witness :
  @createPVC picky unit (@quiet picky None) pickyReplacement apiLots
    (@still picky ∅) =
    (Some (Errorf "error parsing persistent volume size %s: %v"
             ["lots"; "quantities must match the regular expression"]),
     @still picky ∅).
Proof.
  apply (@createPVC_bad_size picky unit (@quiet picky None) pickyReplacement
           apiLots (@still picky ∅) _
           (Errorf "quantities must match the regular expression" []) eq_refl).
  - by vm_compute.
  - reflexivity.
Defined.

(** The hypotheses of X5 hold for [apiSized]. *)
Lemma createPVC_options_witness :
  exists claim answer,
    trace (createPVC apiReplacement apiSized (world [] ∅)).2 =
      [EvCreatePVC "default" claim answer] /\
    pvc_Requests claim = {[ "storage" := "20Gi" ]} /\
    pvc_StorageClassName claim = Some "fast" /\
    pvc_AccessModes claim = ["ReadWriteMany"; "ReadOnlyMany"] /\
    pvc_Name claim = "api-deploy-devspace".
Proof.
  destruct (createPVC_options apiReplacement apiSized (world [] ∅) _ "20Gi"
              eq_refl eq_refl)
    as (claim & answer & Htr & _ & Hreq & Hsc & Ham & Hname).
  exists claim, answer. by split_and!.
Defined.

(** The hypotheses of X6 hold when the creation of the claim is
    forbidden. *)
Lemma createPVC_returns_error_witness :
  (createPVC apiReplacement apiPersist (world [Fails forbidden] ∅)).1 =
    Some forbidden.
Proof.
  apply (createPVC_returns_error apiReplacement apiPersist
           (world [Fails forbidden] ∅)
           [EvCreatePVC "default" defaultClaim (Some forbidden)]
           "default" defaultClaim forbidden).
  - by vm_compute.
  - apply list_elem_of_singleton. reflexivity.
  - left. reflexivity.
Defined.

(** The hypothesis of X9 holds for the quiet cluster. *)
Lemma ReplacePod_single_pass_witness :
  exists err w', forall fuel,
    @ReplacePod types collaborators unit
      (quiet (Some (ObjDeployment apiDeploy))) (Datatypes.S fuel) api (still ∅)
    = (Returned err, w').
Proof.
  apply (@ReplacePod_single_pass types collaborators unit
           (quiet (Some (ObjDeployment apiDeploy))) api (still ∅)).
  intros ns obj c e Hx. discriminate Hx.
Defined.

(** The hypotheses of X10 hold when the Target Resolver finds nothing
    for [api]. *)
Lemma ReplacePod_no_target_witness :
  (ReplacePod 1 api (world [] ∅)).1 =
    Returned (Some (Errorf
      "couldn't find a matching deployment, statefulset or replica set" [])) /\
  remoteCache (ReplacePod 1 api (world [] ∅)).2 = ∅.
Proof.
  destruct (ReplacePod_no_target 0 api (world [] ∅) (Ok None) [])
    as (Hr & Hcache & _).
  - reflexivity.
  - reflexivity.
  - intros target Hx. discriminate Hx.
  - by split.
Defined.

(** The hypotheses of X11 hold when the lookup of the replacement is
    forbidden. *)
Lemma ReplacePod_fetch_error_witness :
  (ReplacePod 1 api (world [Fails forbidden] {[ "api" := apiEntry ]})).1 =
    Returned (Some (Wrap forbidden "find devspace replica set")).
Proof.
  rewrite (ReplacePod_fetch_error 0 api
             (world [Fails forbidden] {[ "api" := apiEntry ]})
             apiEntry forbidden []).
  - done.
  - by vm_compute.
  - by vm_compute.
  - reflexivity.
  - reflexivity.
Defined.

(** The hypotheses of X12 hold when the deletion of the replacement
    without annotations is forbidden. *)
Lemma ReplacePod_stale_delete_error_witness :
  (ReplacePod 1 api
     (world [Gives staleReplacement; Fails forbidden]
        {[ "api" := apiEntry ]})).1 =
    Returned (Some (Wrap forbidden "delete replica set")).
Proof.
  rewrite (ReplacePod_stale_delete_error 0 api
             (world [Gives staleReplacement; Fails forbidden]
                {[ "api" := apiEntry ]})
             apiEntry staleReplacement forbidden [Fails forbidden] []).
  - done.
  - by vm_compute.
  - by vm_compute.
  - reflexivity.
  - by left.
  - reflexivity.
  - reflexivity.
Defined.

(** The hypotheses of X13 hold for the first call of the scenario. *)
Lemma ReplacePod_first_replacement_witness :
  let w := world [Finds (Some (ObjDeployment apiDeploy))] ∅ in
  (ReplacePod 1 api w).1 = Returned None /\
  remoteCache (ReplacePod 1 api w).2 = {[ "api" := apiEntry ]} /\
  length (trace (ReplacePod 1 api w).2) = 6%nat.
Proof.
  cbn zeta.
  destruct (ReplacePod_first_replacement 0 api
    (world [Finds (Some (ObjDeployment apiDeploy))] ∅)
    Deployments apiDeploy [] [] [] [] apiReplacement apiReplacement
    "merge-patch:api-deploy") as (Hr & _ & Hcache & Htr).
  - reflexivity.
  - reflexivity.
  - reflexivity.
  - reflexivity.
  - by vm_compute.
  - reflexivity.
  - reflexivity.
  - reflexivity.
  - by intros Hp%Exists_nil.
  - split_and!; [exact Hr|by rewrite Hcache|by rewrite Htr].
Defined.

(** The hypotheses of X14 hold when [apiPersist] replaces [api-deploy]:
    the claim of 10Gi is created after the replica set, and [replace]
    returns nil. *)
Lemma replace_first_claim_witness :
  let w := world [] ∅ in
  let r := replace (ReplacePod 0) "api-deploy-devspace" (ObjDeployment apiDeploy)
             apiPersist w in
  r.1 = Returned None /\
  exists claim,
    trace r.2 =
      [ EvPatch Deployments "default" "api-deploy" MergePatchType
          "merge-patch:api-deploy" None;
        EvCreate "default" apiReplacement (Ok apiReplacement);
        EvCreatePVC "default" claim None ] /\
    pvc_OwnerReferences claim = [ownerReferenceTo apiReplacement] /\
    pvc_Requests claim = {[ "storage" := "10Gi" ]}.
Proof.
  cbn zeta.
  edestruct (replace_first_claim (ReplacePod 0) "api-deploy-devspace"
    (ObjDeployment apiDeploy) apiPersist (world [] ∅))
    as (claim & tail & Htr & _ & Hown & Hreq & Hres).
  - reflexivity.
  - vm_compute. reflexivity.
  - vm_compute. reflexivity.
  - by repeat constructor.
  - cbn in Hres. destruct Hres as [-> Hr]. split; [exact Hr|].
    exists claim. split_and!; [|exact Hown|exact Hreq].
    rewrite Htr. reflexivity.
Defined.

(** The hypothesis of X16 holds for the first replacement of
    [apiPersist]. *)
Lemma ReplacePod_claims_owned_witness :
  claimsOwned apiPersist None
    (trace (ReplacePod 2 apiPersist
              (world [Finds (Some (ObjDeployment apiDeploy))] ∅)).2).
Proof.
  apply (ReplacePod_claims_owned 2 apiPersist
           (world [Finds (Some (ObjDeployment apiDeploy))] ∅)).
  reflexivity.
Defined.

End FurtherScenarios.
